(** * A shallow embedding of [app/parse.py]

    The scraper drives a browser through the pages of a catalogue, turns the
    rendered document of each page into [Product] records and writes them as
    CSV, one file per page.

    - [Py]    : the Python built-ins the program calls ([str.strip],
                [str.replace], [str.split], [int], [float], [str]);
    - [Soup]  : the part of the BeautifulSoup tree API the program calls;
    - [Csv]   : the [csv] module's writer, with the reader of the same dialect;
    - the program itself: [get_product], [get_page], [click_load_more],
      [write_products_to_csv], [get_all_products], as interaction trees over
      the events of the browser session and of the file system.

    Python exceptions are values of [exn]; a computation that may raise has
    type [result A].  Console output ([print], the [tqdm] progress bar) is not
    part of the modelled state. *)

From ITree Require Import ITree ITreeFacts Events.State Events.StateFacts
  Props.Leaf Props.Infinite.
From Stdlib Require Import String Ascii ZArith NArith List Bool Lia.
From Stdlib Require Import Floats SpecFloat.
Import ListNotations.

Set Implicit Arguments.

(* ===================================================================== *)
(** * Exceptions *)
(* ===================================================================== *)

(** The exception classes that occur in the program.  [WebDriverException]
    stands for every selenium error other than the two the program names,
    [CsvError] for [csv.Error]; [KeyboardInterrupt] derives from
    [BaseException] only. *)
Inductive exn : Type :=
| TypeError
| KeyError
| ValueError
| IndexError
| AttributeError
| IOError
| TimeoutException
| ElementClickInterceptedException
| WebDriverException
| CsvError
| KeyboardInterrupt.

(** [isinstance(e, Exception)] *)
Definition is_Exception (e : exn) : bool :=
  match e with
  | KeyboardInterrupt => false
  | _ => true
  end.

Inductive result (A : Type) : Type :=
| Ok (a : A)
| Raise (e : exn).
Arguments Ok {A} a.
Arguments Raise {A} e.

Definition rbind {A B} (r : result A) (k : A -> result B) : result B :=
  match r with
  | Ok a => k a
  | Raise e => Raise e
  end.

Notation "'let?' x ':=' r 'in' k" := (rbind r (fun x => k))
  (at level 10, x name, r at level 100, k at level 200).

(* ===================================================================== *)
(** * Python built-ins *)
(* ===================================================================== *)

Module Py.

(** A [str] is a sequence of code points. *)
Definition pystr : Type := list N.

(** An ASCII literal as a [str]. *)
Definition lit (s : string) : pystr := map N_of_ascii (list_ascii_of_string s).

Fixpoint eqb (s t : pystr) : bool :=
  match s, t with
  | [], [] => true
  | a :: s', b :: t' => N.eqb a b && eqb s' t'
  | _, _ => false
  end.

(** [str.isspace] on one code point. *)
Definition isspace (c : N) : bool :=
  ((0x09 <=? c) && (c <=? 0x0D) || (0x1C <=? c) && (c <=? 0x20)
   || (c =? 0x85) || (c =? 0xA0) || (c =? 0x1680)
   || (0x2000 <=? c) && (c <=? 0x200A)
   || (c =? 0x2028) || (c =? 0x2029) || (c =? 0x202F) || (c =? 0x205F)
   || (c =? 0x3000))%N.

Fixpoint lstrip (s : pystr) : pystr :=
  match s with
  | c :: s' => if isspace c then lstrip s' else s
  | [] => []
  end.

Definition rstrip (s : pystr) : pystr := rev (lstrip (rev s)).

(** [s.strip()] *)
Definition strip (s : pystr) : pystr := rstrip (lstrip s).

Fixpoint startswith (p s : pystr) : bool :=
  match p, s with
  | [], _ => true
  | a :: p', b :: s' => N.eqb a b && startswith p' s'
  | _ :: _, [] => false
  end.

(** Left-to-right scan for non-overlapping occurrences of a non-empty [old];
    [skip] counts the characters of a match still to be passed over. *)
Fixpoint replace_from (old new : pystr) (skip : nat) (s : pystr) : pystr :=
  match s with
  | [] => []
  | c :: s' =>
      match skip with
      | S k => replace_from old new k s'
      | O =>
          if startswith old s
          then new ++ replace_from old new (length old - 1) s'
          else c :: replace_from old new 0 s'
      end
  end.

(** [s.replace(old, new)] *)
Definition replace (old new s : pystr) : pystr :=
  match old with
  | [] => new ++ flat_map (fun c => c :: new) s
  | _ :: _ => replace_from old new 0 s
  end.

(** [cur] is the piece being collected, last character first. *)
Fixpoint split_from (sep : pystr) (skip : nat) (cur s : pystr) : list pystr :=
  match s with
  | [] => [rev cur]
  | c :: s' =>
      match skip with
      | S k => split_from sep k cur s'
      | O =>
          if startswith sep s
          then rev cur :: split_from sep (length sep - 1) [] s'
          else split_from sep 0 (c :: cur) s'
      end
  end.

(** [s.split(sep)] with an explicit separator *)
Definition split (sep s : pystr) : result (list pystr) :=
  match sep with
  | [] => Raise ValueError
  | _ :: _ => Ok (split_from sep 0 [] s)
  end.

(** [l[i]] on a list *)
Definition getitem {A} (l : list A) (i : Z) : result A :=
  let n := Z.of_nat (length l) in
  let j := (if i <? 0 then n + i else i)%Z in
  if ((0 <=? j) && (j <? n))%Z
  then match nth_error l (Z.to_nat j) with
       | Some a => Ok a
       | None => Raise IndexError
       end
  else Raise IndexError.

(** ** [int(s)] and [str(n)] *)

(** First code point of each range of ten decimal digits (category Nd of
    the Unicode database of CPython 3.11). *)
Definition digit_zeros : list N :=
  [0x30; 0x660; 0x6F0; 0x7C0; 0x966; 0x9E6; 0xA66; 0xAE6; 0xB66; 0xBE6;
   0xC66; 0xCE6; 0xD66; 0xDE6; 0xE50; 0xED0; 0xF20; 0x1040; 0x1090; 0x17E0;
   0x1810; 0x1946; 0x19D0; 0x1A80; 0x1A90; 0x1B50; 0x1BB0; 0x1C40; 0x1C50;
   0xA620; 0xA8D0; 0xA900; 0xA9D0; 0xA9F0; 0xAA50; 0xABF0; 0xFF10; 0x104A0;
   0x10D30; 0x11066; 0x110F0; 0x11136; 0x111D0; 0x112F0; 0x11450; 0x114D0;
   0x11650; 0x116C0; 0x11730; 0x118E0; 0x11950; 0x11C50; 0x11D50; 0x11DA0;
   0x16A60; 0x16AC0; 0x16B50; 0x1D7CE; 0x1D7D8; 0x1D7E2; 0x1D7EC; 0x1D7F6;
   0x1E140; 0x1E2F0; 0x1E950; 0x1FBF0]%N.

Definition digit_value (c : N) : option N :=
  match find (fun z => (z <=? c) && (c <? z + 10))%N digit_zeros with
  | Some z => Some (c - z)%N
  | None => None
  end.

(** Before parsing a number CPython maps the text to ASCII: a decimal digit
    of any script becomes its ASCII digit, a non-ASCII blank a space, and
    any other non-ASCII character a question mark, which no number
    contains. *)
Definition to_ascii (c : N) : N :=
  if (c <? 127)%N then c
  else if isspace c then 32%N
  else match digit_value c with
       | Some v => (48 + v)%N
       | None => 63%N
       end.

(** The blanks of the C locale, skipped around a number. *)
Definition c_isspace (c : N) : bool := ((9 <=? c) && (c <=? 13) || (c =? 32))%N.

Fixpoint c_lstrip (s : pystr) : pystr :=
  match s with
  | c :: s' => if c_isspace c then c_lstrip s' else s
  | [] => []
  end.

Definition c_strip (s : pystr) : pystr := rev (c_lstrip (rev (c_lstrip s))).

Definition is_digit (c : N) : bool := ((48 <=? c) && (c <=? 57))%N.

(** Digits with single underscores between them; [after_digit] tells
    whether the previous character was a digit. *)
Fixpoint digits (s : pystr) (acc : Z) (after_digit : bool) : option Z :=
  match s with
  | [] => if after_digit then Some acc else None
  | c :: s' =>
      if is_digit c then digits s' (10 * acc + Z.of_N (c - 48)) true
      else if (c =? 95)%N && after_digit then digits s' acc false
      else None
  end.

(** A leading [-] or [+]. *)
Definition split_sign (s : pystr) : bool * pystr :=
  match s with
  | c :: r =>
      if (c =? 45)%N then (true, r)
      else if (c =? 43)%N then (false, r)
      else (false, s)
  | [] => (false, [])
  end.

(** [int(s)] on a [str], base ten.  (The cap on the number of digits that
    recent interpreters put on the conversion is not modelled.) *)
Definition int_of_str (s : pystr) : result Z :=
  let (neg, body) := split_sign (c_strip (map to_ascii s)) in
  match digits body 0 false with
  | Some n => Ok (if neg then - n else n)%Z
  | None => Raise ValueError
  end.

Fixpoint digits_of (fuel : nat) (n : Z) (acc : pystr) : pystr :=
  let acc' := (48 + Z.to_N (n mod 10))%N :: acc in
  match fuel with
  | O => acc'
  | S f => if (n <? 10)%Z then acc' else digits_of f (n / 10) acc'
  end.

(** The decimal digits of [n >= 0]. *)
Definition str_of_nat (n : Z) : pystr := digits_of (Z.to_nat (Z.log2 n)) n [].

(** [str(n)] on an [int] *)
Definition str_of_int (n : Z) : pystr :=
  if (n <? 0)%Z then 45%N :: str_of_nat (- n) else str_of_nat n.

(** ** [float(s)] *)

(** The binary64 number nearest to [m * 10^e], ties to even. *)
Definition dec2float (neg : bool) (m e : Z) : float :=
  match m with
  | Zpos p =>
      if (0 <=? e)%Z
      then SF2Prim (binary_normalize prec emax
                      ((if neg then - m else m) * 10 ^ e) 0 neg)
      else SF2Prim (SFdiv prec emax (S754_finite neg p 0)
                      (S754_finite false (Z.to_pos (10 ^ (- e))) 0))
  | _ => if neg then neg_zero else zero
  end.

(** Underscores may stand only between two digits. *)
Fixpoint underscores_ok (prev : N) (s : pystr) : bool :=
  match s with
  | [] => negb (prev =? 95)%N
  | c :: s' =>
      (if (c =? 95)%N then is_digit prev
       else negb (prev =? 95)%N || is_digit c)
      && underscores_ok c s'
  end.

Definition lower (c : N) : N := if ((65 <=? c) && (c <=? 90))%N then (c + 32)%N else c.

(** A run of digits: the number read after [acc], how many digits, the rest. *)
Fixpoint take_digits (s : pystr) (acc : Z) (n : Z) : Z * Z * pystr :=
  match s with
  | c :: s' =>
      if is_digit c then take_digits s' (10 * acc + Z.of_N (c - 48)) (n + 1)
      else (acc, n, s)
  | [] => (acc, n, [])
  end.

(** The exponent part: empty, or [e], a sign and at least one digit, up to
    the end of the text. *)
Definition exponent (s : pystr) : option Z :=
  match s with
  | [] => Some 0%Z
  | c :: r =>
      if (lower c =? 101)%N then
        let (neg, ds) := split_sign r in
        match take_digits ds 0 0 with
        | (v, n, []) => if (0 <? n)%Z then Some (if neg then - v else v)%Z else None
        | _ => None
        end
      else None
  end.

Definition decimal (neg : bool) (s : pystr) : option float :=
  let '(ip, ni, r1) := take_digits s 0 0 in
  let '(m, nf, r2) :=
    match r1 with
    | 46%N :: r => take_digits r ip 0
    | _ => (ip, 0%Z, r1)
    end in
  if (0 <? ni + nf)%Z then
    match exponent r2 with
    | Some x => Some (dec2float neg m (x - nf))
    | None => None
    end
  else None.

(** [float(s)] on a [str] *)
Definition float_of_str (s : pystr) : result float :=
  let a := map to_ascii s in
  if underscores_ok 0 a then
    let (neg, body) := split_sign (c_strip (filter (fun c => negb (c =? 95)%N) a)) in
    let word := map lower body in
    if eqb word (lit "inf") || eqb word (lit "infinity")
    then Ok (if neg then neg_infinity else infinity)
    else if eqb word (lit "nan") then Ok nan
    else match decimal neg body with
         | Some f => Ok f
         | None => Raise ValueError
         end
  else Raise ValueError.

(** ** [str(x)] on a [float] *)

(** [num / den >= 10 ^ d] *)
Definition ge_pow10 (num den d : Z) : bool :=
  (if 0 <=? d then 10 ^ d * den <=? num else den <=? 10 ^ (- d) * num)%Z.

(** The [d] with [10 ^ (d - 1) <= num / den < 10 ^ d]: an estimate from the
    binary logarithms, corrected by at most [fuel] steps each way. *)
Fixpoint decpt_up (fuel : nat) (num den d : Z) : Z :=
  match fuel with
  | O => d
  | S f => if ge_pow10 num den d then decpt_up f num den (d + 1) else d
  end.

Fixpoint decpt_down (fuel : nat) (num den d : Z) : Z :=
  match fuel with
  | O => d
  | S f => if ge_pow10 num den (d - 1) then d else decpt_down f num den (d - 1)
  end.

Definition decpt_of (num den : Z) : Z :=
  let d0 := ((Z.log2 num - Z.log2 den) * 30103 / 100000)%Z in
  decpt_down 4 num den (decpt_up 4 num den d0).

(** [floor (num / den / 10 ^ k)] *)
Definition scaled_floor (num den k : Z) : Z :=
  (if 0 <=? k then num / (den * 10 ^ k) else (num * 10 ^ (- k)) / den)%Z.

(** Whether [lo * 10 ^ k] is at least as near to [num / den] as
    [(lo + 1) * 10 ^ k]; on a tie the even one wins. *)
Definition lo_nearer (num den k lo : Z) : bool :=
  let '(a, b) :=
    (if 0 <=? k then (2 * num, (2 * lo + 1) * den * 10 ^ k)
     else (2 * num * 10 ^ (- k), (2 * lo + 1) * den))%Z in
  ((a <? b) || (a =? b) && Z.even lo)%Z.

(** The [n]-digit decimals next to [x = num / den], those of them that
    [float] maps back to [x], the nearer first. *)
Definition candidates (x : float) (num den decpt : Z) (n : Z) : list (Z * Z) :=
  let k := (decpt - n)%Z in
  let lo := scaled_floor num den k in
  let back d := PrimFloat.eqb (dec2float false d k) x in
  let ordered :=
    if lo_nearer num den k lo then [lo; (lo + 1)%Z] else [(lo + 1)%Z; lo] in
  map (fun d => (d, k)) (filter back ordered).

Definition nearest (num den decpt : Z) (n : Z) : Z * Z :=
  let k := (decpt - n)%Z in
  let lo := scaled_floor num den k in
  (if lo_nearer num den k lo then lo else (lo + 1)%Z, k).

(** The first of [n], [n + 1], ... digits at which a candidate exists;
    past [fuel] more digits, the nearest decimal. *)
Fixpoint shortest (x : float) (num den decpt : Z) (n : Z) (fuel : nat) : Z * Z :=
  match fuel with
  | O => nearest num den decpt n
  | S f =>
      match candidates x num den decpt n with
      | c :: _ => c
      | [] => shortest x num den decpt (n + 1) f
      end
  end.

Fixpoint drop_zeros (fuel : nat) (d k : Z) : Z * Z :=
  match fuel with
  | O => (d, k)
  | S f => if (d mod 10 =? 0)%Z then drop_zeros f (d / 10) (k + 1) else (d, k)
  end.

Definition zeros (n : Z) : pystr := repeat 48%N (Z.to_nat n).

(** The text of [0.digits * 10 ^ decpt] as [repr] lays it out: plain
    notation for [-4 < decpt <= 16], else one digit, the others after a
    point, and an exponent of two digits at least. *)
Definition layout (ds : pystr) (decpt : Z) : pystr :=
  let nd := Z.of_nat (length ds) in
  if ((-4 <? decpt) && (decpt <=? 16))%Z then
    if (decpt <=? 0)%Z then lit "0." ++ zeros (- decpt) ++ ds
    else if (nd <=? decpt)%Z then ds ++ zeros (decpt - nd) ++ lit ".0"
    else firstn (Z.to_nat decpt) ds ++ 46%N :: skipn (Z.to_nat decpt) ds
  else
    let x := (decpt - 1)%Z in
    let mant :=
      match ds with
      | d :: (_ :: _) as more => d :: 46%N :: more
      | _ => ds
      end in
    let xs := str_of_nat (Z.abs x) in
    mant ++ 101%N :: (if (x <? 0)%Z then 45%N else 43%N)
         :: (if (Z.abs x <? 10)%Z then 48%N :: xs else xs).

(** [str(x)], which is [repr(x)]: the shortest decimal that [float] maps
    back to [x]. *)
Definition str_of_float (x : float) : pystr :=
  match Prim2SF x with
  | S754_nan => lit "nan"
  | S754_infinity s => if s then lit "-inf" else lit "inf"
  | S754_zero s => if s then lit "-0.0" else lit "0.0"
  | S754_finite s m e =>
      let num := (if 0 <=? e then Zpos m * 2 ^ e else Zpos m)%Z in
      let den := (if 0 <=? e then 1 else 2 ^ (- e))%Z in
      let decpt := decpt_of num den in
      let (d, k) := shortest (abs x) num den decpt 1 16 in
      let (d', k') := drop_zeros 17 d k in
      let ds := str_of_nat d' in
      (if s then [45%N] else []) ++ layout ds (k' + Z.of_nat (length ds))
  end.

End Py.

Abbreviation pystr := Py.pystr.

(* ===================================================================== *)
(** * The BeautifulSoup tree *)
(* ===================================================================== *)

Module Soup.

(** A parsed document: text nodes and elements.  The parser keeps the
    [class] attribute of an element apart, split into its blank-separated
    names; [attrs] holds the other attributes, each a [str].  The
    [BeautifulSoup] object is the element named [[document]] at the root. *)
Inductive node : Type :=
| NavigableString (s : pystr)
| Tag (name : pystr) (classes : list pystr) (attrs : list (pystr * pystr))
      (contents : list node).

(** All nodes strictly below [n], in document order. *)
Fixpoint descendants (n : node) : list node :=
  match n with
  | NavigableString _ => []
  | Tag _ _ _ cs => flat_map (fun c => c :: descendants c) cs
  end.

Definition has_class (cls : pystr) (n : node) : bool :=
  match n with
  | NavigableString _ => false
  | Tag _ classes _ _ => existsb (Py.eqb cls) classes
  end.

(** [n.select("." + cls)] *)
Definition select (cls : pystr) (n : node) : list node :=
  filter (has_class cls) (descendants n).

(** [n.select_one("." + cls)]: the first match, or [None] *)
Definition select_one (cls : pystr) (n : node) : option node :=
  hd_error (select cls n).

(** [n.find_all(name, class_=cls)] *)
Definition find_all (name cls : pystr) (n : node) : list node :=
  filter (fun d => match d with
                   | Tag nm _ _ _ => Py.eqb nm name && has_class cls d
                   | NavigableString _ => false
                   end)
         (descendants n).

(** [n.text]: the text nodes below [n], concatenated *)
Fixpoint text (n : node) : pystr :=
  match n with
  | NavigableString s => s
  | Tag _ _ _ cs => concat (map text cs)
  end.

Fixpoint lookup (key : pystr) (attrs : list (pystr * pystr)) : option pystr :=
  match attrs with
  | [] => None
  | (k, v) :: rest => if Py.eqb k key then Some v else lookup key rest
  end.

(** [x[key]] where [x] is the result of [select_one]: [None] is not
    subscriptable, an element without the attribute has no such key. *)
Definition getitem (x : option node) (key : pystr) : result pystr :=
  match x with
  | Some (Tag _ _ attrs _) =>
      match lookup key attrs with
      | Some v => Ok v
      | None => Raise KeyError
      end
  | Some (NavigableString _) => Raise TypeError
  | None => Raise TypeError
  end.

End Soup.

(* ===================================================================== *)
(** * Products and their extraction *)
(* ===================================================================== *)

Record Product : Type := mkProduct {
  title : pystr;
  description : pystr;
  price : float;
  rating : Z;
  num_of_reviews : Z
}.

Definition PRODUCT_FIELDS : list pystr :=
  [Py.lit "title"; Py.lit "description"; Py.lit "price"; Py.lit "rating";
   Py.lit "num_of_reviews"].

(** The non-breaking space, ["\xa0"]. *)
Definition nbsp : N := 0xA0%N.

(** [d.text.replace("\xa0", " ").strip()] *)
Definition description_text (d : Soup.node) : pystr :=
  Py.strip (Py.replace [nbsp] (Py.lit " ") (Soup.text d)).

(** [float(e.text.replace("$", ""))] *)
Definition price_value (e : Soup.node) : result float :=
  Py.float_of_str (Py.replace (Py.lit "$") (Py.lit "") (Soup.text e)).

(** [int(e.text.split(" ")[0])] *)
Definition review_count_value (e : Soup.node) : result Z :=
  let? parts := Py.split (Py.lit " ") (Soup.text e) in
  let? token := Py.getitem parts 0 in
  Py.int_of_str token.

(** The [try] block of [get_product]. *)
Definition get_product_try (product_soup : Soup.node) : result Product :=
  let? title :=
    Soup.getitem (Soup.select_one (Py.lit "title") product_soup) (Py.lit "title") in
  let description :=
    match Soup.select_one (Py.lit "description") product_soup with
    | Some d => description_text d
    | None => Py.lit ""
    end in
  let? price :=
    match Soup.select_one (Py.lit "price") product_soup with
    | Some e => price_value e
    | None => Ok zero
    end in
  let rating :=
    Z.of_nat (length (Soup.find_all (Py.lit "span") (Py.lit "ws-icon-star")
                        product_soup)) in
  let? num_of_reviews :=
    match Soup.select_one (Py.lit "review-count") product_soup with
    | Some e => review_count_value e
    | None => Ok 0%Z
    end in
  Ok (mkProduct title description price rating num_of_reviews).

(** [get_product]: [except Exception] turns what the block raises into
    [None]; an exception outside [Exception] would pass through. *)
Definition get_product (product_soup : Soup.node) : result (option Product) :=
  match get_product_try product_soup with
  | Ok p => Ok (Some p)
  | Raise e => if is_Exception e then Ok None else Raise e
  end.

(** A list comprehension [[f(x) for x in l]]. *)
Fixpoint comprehension {A B} (f : A -> result B) (l : list A) : result (list B) :=
  match l with
  | [] => Ok []
  | x :: l' =>
      let? y := f x in
      let? ys := comprehension f l' in
      Ok (y :: ys)
  end.

(** What [get_page] does with the parsed document:
    [products = soup.select(".thumbnail")] and the comprehension over it. *)
Definition get_page_products (soup : Soup.node) : result (list (option Product)) :=
  let products := Soup.select (Py.lit "thumbnail") soup in
  comprehension get_product products.

(* ===================================================================== *)
(** * The [csv] module, default dialect *)
(* ===================================================================== *)

Module Csv.

(** Delimiter [,], quote character, line terminator [\r\n], minimal
    quoting, quotes doubled, no escape character, not strict. *)
Definition delimiter : N := 44%N.
Definition quotechar : N := 34%N.
Definition cr : N := 13%N.
Definition lf : N := 10%N.

(** ** The writer *)

(** A value handed to [writerow]: a [str] goes out as it is, a number as
    [str] of it. *)
Inductive cell : Type :=
| Str (s : pystr)
| Float (x : float)
| Int (n : Z).

Definition str_of_cell (c : cell) : pystr :=
  match c with
  | Str s => s
  | Float x => Py.str_of_float x
  | Int n => Py.str_of_int n
  end.

(** The characters that make the writer quote a field. *)
Definition special (c : N) : bool :=
  ((c =? delimiter) || (c =? quotechar) || (c =? cr) || (c =? lf))%N.

Definition double_quotes (field : pystr) : pystr :=
  flat_map (fun c => if (c =? quotechar)%N then [quotechar; quotechar] else [c]) field.

Definition format_field (field : pystr) : pystr :=
  if existsb special field
  then quotechar :: double_quotes field ++ [quotechar]
  else field.

Fixpoint join (fields : list pystr) : pystr :=
  match fields with
  | [] => []
  | [f] => f
  | f :: rest => f ++ delimiter :: join rest
  end.

(** The text [writerow] writes; a row that is one empty field is written
    as two quotes. *)
Definition format_row (fields : list pystr) : pystr :=
  match fields with
  | [[]] => [quotechar; quotechar]
  | _ => join (map format_field fields)
  end ++ [cr; lf].

Definition writerow (row : list cell) : pystr := format_row (map str_of_cell row).

(** ** The reader *)
















End Csv.

(* ===================================================================== *)
(** * Effects: the browser session and the file system *)
(* ===================================================================== *)

(** A [webdriver.Chrome] session. *)
Definition driver : Type := nat.

(** What the program asks of its environment.  An answer [Raise e] is the
    call raising [e]. *)
Variant scrapeE : Type -> Type :=
| NewSession (headless : bool) : scrapeE (result driver)
    (* [webdriver.Chrome(options=options)] *)
| Get (d : driver) (url : pystr) : scrapeE (result unit)
    (* [driver.get(url)] *)
| UntilClickable (d : driver) (cls : pystr) : scrapeE (result pystr)
    (* [WebDriverWait(driver, 10).until(ec.element_to_be_clickable((By.CLASS_NAME, cls)))] *)
| Click (d : driver) (element : pystr) : scrapeE (result unit)
    (* [element.click()] *)
| Sleep (seconds : float) : scrapeE unit
    (* [time.sleep(seconds)] *)
| PageSource (d : driver) : scrapeE (result Soup.node)
    (* [BeautifulSoup(driver.page_source, "html.parser")] *)
| Quit (d : driver) : scrapeE (result unit)
    (* [driver.quit()] *)
| OpenW (path : pystr) : scrapeE (result unit)
    (* [open(path, "w", newline="", encoding="utf-8")] *)
| WriteText (path : pystr) (text : pystr) : scrapeE (result unit)
    (* [file.write(text)], which the csv writer calls once per row *)
| CloseFile (path : pystr) : scrapeE unit.
    (* leaving the [with] block *)

(** A computation of the program: it talks to the environment and ends
    with a value or a raised exception. *)
Definition exec (A : Type) : Type := itree scrapeE (result A).

Definition ret {A} (a : A) : exec A := Ret (Ok a).

Definition raise {A} (e : exn) : exec A := Ret (Raise e).

Definition ebind {A B} (m : exec A) (k : A -> exec B) : exec B :=
  ITree.bind m (fun r => match r with
                         | Ok a => k a
                         | Raise e => Ret (Raise e)
                         end).

Notation "x <~ m ;; k" := (ebind m (fun x => k))
  (at level 61, m at next level, right associativity).
Notation "m ;;; k" := (ebind m (fun _ => k))
  (at level 61, right associativity).

(** A call of the environment that may raise. *)
Definition call {A} (e : scrapeE (result A)) : exec A := ITree.trigger e.

(** A call of the environment that cannot. *)
Definition perform {A} (e : scrapeE A) : exec A :=
  ITree.bind (ITree.trigger e) (fun a => Ret (Ok a)).

(** A pure computation that may raise. *)
Definition lift {A} (r : result A) : exec A := Ret r.

(** [try: body / except <caught>: handler] *)
Definition try_except {A} (body : exec A) (caught : exn -> bool)
    (handler : exn -> exec A) : exec A :=
  ITree.bind body (fun r => match r with
                            | Ok a => Ret (Ok a)
                            | Raise e => if caught e then handler e else Ret (Raise e)
                            end).

(** [while True: body]: it ends only when [body] raises. *)
Definition while_true {A} (body : exec unit) : exec A :=
  ITree.iter (fun _ : unit =>
                ITree.bind body (fun r => match r with
                                          | Ok _ => Ret (inl tt)
                                          | Raise e => Ret (inr (Raise e))
                                          end)) tt.

(** [for x in l: body] *)
Fixpoint for_each {A} (l : list A) (body : A -> exec unit) : exec unit :=
  match l with
  | [] => ret tt
  | x :: l' => body x ;;; for_each l' body
  end.

(** [with open(path, "w", ...) as file: body]: the file is closed on the
    way out, however [body] ends. *)
Definition with_open (path : pystr) (body : exec unit) : exec unit :=
  call (OpenW path) ;;;
  ITree.bind body (fun r => ITree.bind (ITree.trigger (CloseFile path)) (fun _ => Ret r)).

(* ===================================================================== *)
(** * The program *)
(* ===================================================================== *)

Definition BASE_URL : pystr := Py.lit "https://webscraper.io/".

(** [urljoin(BASE_URL, "test-sites/e-commerce/more/")] *)
Definition HOME_URL : pystr := BASE_URL ++ Py.lit "test-sites/e-commerce/more/".

(** The dictionary [PAGES], in the order of its keys; each [urljoin] of
    [HOME_URL], which ends in a slash, appends the relative path. *)
Definition PAGES : list (pystr * pystr) :=
  [ (Py.lit "home", HOME_URL);
    (Py.lit "computers", HOME_URL ++ Py.lit "computers");
    (Py.lit "laptops", HOME_URL ++ Py.lit "computers/laptops");
    (Py.lit "tablets", HOME_URL ++ Py.lit "computers/tablets");
    (Py.lit "phones", HOME_URL ++ Py.lit "phones");
    (Py.lit "touch", HOME_URL ++ Py.lit "phones/touch") ].

Definition init_driver (headless : bool) : exec driver :=
  call (NewSession headless).

Definition is_click_or_timeout (e : exn) : bool :=
  match e with
  | ElementClickInterceptedException | TimeoutException => true
  | _ => false
  end.

Definition accept_cookies (d : driver) : exec unit :=
  try_except
    (cookie <~ call (UntilClickable d (Py.lit "acceptCookies")) ;;
     call (Click d cookie))
    is_click_or_timeout
    (fun _ => ret tt).

Definition click_load_more (d : driver) : exec unit :=
  try_except
    (while_true
       (button <~ call (UntilClickable d (Py.lit "ecomerce-items-scroll-more")) ;;
        call (Click d button) ;;;
        perform (Sleep 0.5)))
    is_click_or_timeout
    (fun _ => ret tt).

Definition get_page (d : driver) (page_url : pystr) : exec (list (option Product)) :=
  try_except
    (call (Get d page_url) ;;;
     accept_cookies d ;;;
     click_load_more d ;;;
     soup <~ call (PageSource d) ;;
     lift (get_page_products soup))
    is_Exception
    (fun _ => ret []).

(** The tuple [formatted_product]; reading an attribute of [None] raises
    [AttributeError]. *)
Definition formatted_product (product : option Product) : result (list Csv.cell) :=
  match product with
  | Some p =>
      Ok [Csv.Str (title p); Csv.Str (description p); Csv.Float (price p);
          Csv.Int (rating p); Csv.Int (num_of_reviews p)]
  | None => Raise AttributeError
  end.

Definition is_IOError (e : exn) : bool :=
  match e with
  | IOError => true
  | _ => false
  end.

Definition write_products_to_csv (output_csv_path : pystr)
    (products : list (option Product)) : exec unit :=
  try_except
    (with_open output_csv_path
       (call (WriteText output_csv_path (Csv.writerow (map Csv.Str PRODUCT_FIELDS))) ;;;
        for_each products (fun product =>
          row <~ lift (formatted_product product) ;;
          call (WriteText output_csv_path (Csv.writerow row)))))
    is_IOError
    (fun _ => ret tt).

Definition close_driver (d : driver) : exec unit := call (Quit d).

(** [if products:] *)
Definition truthy {A} (l : list A) : bool :=
  match l with
  | [] => false
  | _ :: _ => true
  end.

Definition get_all_products : exec unit :=
  d <~ init_driver false ;;
  for_each PAGES (fun '(page_name, page_url) =>
    products <~ get_page d page_url ;;
    if truthy products
    then write_products_to_csv (page_name ++ Py.lit ".csv") products
    else ret tt) ;;;
  close_driver d.

(* ===================================================================== *)
(** * The environment *)
(* ===================================================================== *)

(** One round at the "load more" control: what waiting for it to be
    clickable does, and what the click does if the wait returns. *)
Record round : Type := mkRound {
  wait_outcome : result unit;
  click_outcome : result unit
}.

(** How a page behaves: the navigation, the consent control, the rounds at
    the "load more" control, and the document once [rounds] clicks have
    loaded more of it. *)
Record page : Type := mkPage {
  navigation : result unit;
  consent : round;
  load_more : nat -> round;
  document : nat -> result Soup.node
}.

(** What the environment was asked to do, in order. *)
Inductive action : Type :=
| Started (d : driver)
| Navigated (d : driver) (url : pystr)
| Waited (d : driver) (cls : pystr)
| Clicked (d : driver) (cls : pystr)
| Slept (seconds : float)
| Rendered (d : driver)
| Closed (d : driver)
| Opened (path : pystr)
| Wrote (path : pystr) (text : pystr)
| Released (path : pystr).

Record world : Type := mkWorld {
  site : pystr -> page;              (* the pages, by URL *)
  startup : result unit;             (* whether a browser can be started *)
  current_url : option pystr;           (* the page the session shows *)
  rounds : nat;                      (* rounds played on that page *)
  loaded : nat;                      (* clicks that went through on it *)
  read_only : pystr -> bool;         (* paths that cannot be opened for writing *)
  files : list (pystr * pystr);      (* the files written, latest first *)
  sessions : nat;                    (* sessions started so far *)
  trace : list action                (* latest first *)
}.

Definition note (a : action) (w : world) : world :=
  mkWorld (site w) (startup w) (current_url w) (rounds w) (loaded w)
          (read_only w) (files w) (sessions w) (a :: trace w).

Definition here (w : world) : option page := option_map (site w) (current_url w).

Fixpoint file_content (path : pystr) (fs : list (pystr * pystr)) : option pystr :=
  match fs with
  | [] => None
  | (p, text) :: rest => if Py.eqb p path then Some text else file_content path rest
  end.

Fixpoint append_to (path text : pystr) (fs : list (pystr * pystr)) : list (pystr * pystr) :=
  match fs with
  | [] => []
  | (p, old) :: rest =>
      if Py.eqb p path then (p, old ++ text) :: rest
      else (p, old) :: append_to path text rest
  end.

Definition answer_wait (cls : pystr) (w : world) : result pystr :=
  match here w with
  | None => Raise WebDriverException
  | Some pg =>
      let r := if Py.eqb cls (Py.lit "acceptCookies") then consent pg
               else load_more pg (rounds w) in
      let? _ := wait_outcome r in Ok cls
  end.

Definition answer_click (cls : pystr) (w : world) : result unit * world :=
  match here w with
  | None => (Raise WebDriverException, w)
  | Some pg =>
      if Py.eqb cls (Py.lit "acceptCookies") then (click_outcome (consent pg), w)
      else
        let r := click_outcome (load_more pg (rounds w)) in
        (r, mkWorld (site w) (startup w) (current_url w) (S (rounds w))
                    (match r with Ok _ => S (loaded w) | Raise _ => loaded w end)
                    (read_only w) (files w) (sessions w) (trace w))
  end.

(** The environment's answer to each call, and the state it leaves. *)
Definition handle {T} (e : scrapeE T) (w : world) : world * T :=
  match e in scrapeE T return world * T with
  | NewSession _ =>
      match startup w with
      | Ok _ =>
          let d := sessions w in
          (note (Started d)
             (mkWorld (site w) (startup w) None 0 0 (read_only w) (files w)
                      (S (sessions w)) (trace w)),
           Ok d)
      | Raise x => (w, Raise x)
      end
  | Get d url =>
      let w1 := note (Navigated d url) w in
      match navigation (site w url) with
      | Ok _ =>
          (mkWorld (site w1) (startup w1) (Some url) 0 0 (read_only w1) (files w1)
                   (sessions w1) (trace w1),
           Ok tt)
      | Raise x => (w1, Raise x)
      end
  | UntilClickable d cls =>
      let w1 := note (Waited d cls) w in
      (w1, answer_wait cls w1)
  | Click d cls =>
      let (r, w1) := answer_click cls (note (Clicked d cls) w) in
      (w1, r)
  | Sleep s => (note (Slept s) w, tt)
  | PageSource d =>
      let w1 := note (Rendered d) w in
      (w1, match here w1 with
           | Some pg => document pg (loaded w1)
           | None => Raise WebDriverException
           end)
  | Quit d => (note (Closed d) w, Ok tt)
  | OpenW path =>
      let w1 := note (Opened path) w in
      if read_only w path then (w1, Raise IOError)
      else
        (mkWorld (site w1) (startup w1) (current_url w1) (rounds w1) (loaded w1)
                 (read_only w1) ((path, []) :: files w1) (sessions w1) (trace w1),
         Ok tt)
  | WriteText path text =>
      let w1 := note (Wrote path text) w in
      (mkWorld (site w1) (startup w1) (current_url w1) (rounds w1) (loaded w1)
               (read_only w1) (append_to path text (files w1)) (sessions w1) (trace w1),
       Ok tt)
  | CloseFile path => (note (Released path) w, tt)
  end.

Definition handler : scrapeE ~> Monads.stateT world (itree void1) :=
  fun T e w => Ret (handle e w).

(** Running a computation of the program in a world. *)
Definition run {A} (m : exec A) (w : world) : itree void1 (world * result A) :=
  interp_state handler m w.

(** How often the session [d] was closed. *)
Definition times_closed (d : driver) (tr : list action) : nat :=
  length (filter (fun a => match a with
                           | Closed d' => Nat.eqb d d'
                           | _ => false
                           end) tr).

Definition writer_invoked (path : pystr) (tr : list action) : bool :=
  existsb (fun a => match a with
                    | Opened p => Py.eqb p path
                    | _ => false
                    end) tr.

(* ===================================================================== *)
(** * Reading a written file back *)
(* ===================================================================== *)

(** The text of a product's row, cell by cell. *)
Definition product_row (p : Product) : list pystr :=
  [title p; description p; Py.str_of_float (price p); Py.str_of_int (rating p);
   Py.str_of_int (num_of_reviews p)].




Open Scope string_scope.
Open Scope list_scope.


(* ===================================================================== *)
(** * Vocabulary of the statements *)
(* ===================================================================== *)

(** [run m w] ends in the world [w'] with the result [r]. *)
Definition returns {A} (m : exec A) (w w' : world) (r : result A) : Prop :=
  run m w ≈ Ret (w', r).

(** [m] run in [w] ends, in a world and with a result that [P] holds of. *)
Definition outcome {A} (m : exec A) (w : world) (P : world -> result A -> Prop) : Prop :=
  exists w' r, returns m w w' r /\ P w' r.

(** Between [w] and [w'] the site and the file permissions are the same, no
    session was started and the session [d] was not closed. *)
Definition quiet (d : driver) (w w' : world) : Prop :=
  site w' = site w /\ startup w' = startup w /\ read_only w' = read_only w
  /\ sessions w' = sessions w
  /\ times_closed d (trace w') = times_closed d (trace w).

(** Moreover the session shows the same page in the same state, and no
    file was touched. *)
Definition still (d : driver) (w w' : world) : Prop :=
  quiet d w w' /\ files w' = files w /\ current_url w' = current_url w
  /\ rounds w' = rounds w /\ loaded w' = loaded w.

(** An executable reading of [run]: at most [fuel] steps of the tree. *)
Fixpoint eval {A} (fuel : nat) (m : exec A) (w : world) : option (world * result A) :=
  match fuel with
  | O => None
  | S f =>
      match observe m with
      | RetF r => Some (w, r)
      | TauF t => eval f t w
      | VisF e k => let (w1, a) := handle e w in eval f (k a) w1
      end
  end.

(** ** Text *)

Definition nbsp_to_space (c : N) : N := if N.eqb c nbsp then 32%N else c.

(** The characters of [s] up to its first blank. *)
Fixpoint until_blank (s : pystr) : pystr :=
  match s with
  | c :: s' => if Py.isspace c then [] else c :: until_blank s'
  | [] => []
  end.

(** The first piece of [s.split()], the leading token between blanks; it
    is empty when [s] is blank. *)
Definition leading_token (s : pystr) : pystr := until_blank (Py.lstrip s).

(** The characters of [s] up to its first space. *)
Fixpoint before_space (s : pystr) : pystr :=
  match s with
  | c :: s' => if N.eqb 32 c then [] else c :: before_space s'
  | [] => []
  end.

(** The characters a numeral is made of. *)
Definition in_numeral (c : N) : Prop :=
  Py.is_digit c = true \/ c = 95%N \/ c = 45%N \/ c = 43%N.



(** ASCII decimal digits, and the number they write. *)
Definition ascii_digits (ds : pystr) : Prop := Forall (fun c => Py.is_digit c = true) ds.

Definition value_of (ds : pystr) : Z :=
  fold_left (fun acc c => (10 * acc + Z.of_N (c - 48))%Z) ds 0%Z.

(** The characters of a decimal: digits and the point. *)
Definition plain (c : N) : Prop := Py.is_digit c = true \/ c = 46%N.

(** The text of a price element: a dollar sign, then the digits [ip], a
    point and the digits [fp]. *)
Definition priced (e : Soup.node) (ip fp : pystr) : Prop :=
  ip <> [] /\ ascii_digits ip /\ ascii_digits fp
  /\ Soup.text e = Py.lit "$" ++ ip ++ Py.lit "." ++ fp.

(** ** The "load more" loop *)

Definition load_more_control : pystr := Py.lit "ecomerce-items-scroll-more".

Definition consent_control : pystr := Py.lit "acceptCookies".

(** One round: wait for the control, click it, pause. *)
Definition load_more_round (d : driver) : exec unit :=
  button <~ call (UntilClickable d load_more_control) ;;
  call (Click d button) ;;;
  perform (Sleep 0.5).

(** The actions of one click-then-pause cycle, latest first. *)
Definition cycle (d : driver) : list action :=
  [Slept 0.5; Clicked d load_more_control; Waited d load_more_control].

Fixpoint cycles (d : driver) (n : nat) : list action :=
  match n with
  | O => []
  | S k => cycle d ++ cycles d k
  end.

Definition after_cycle (d : driver) (w : world) : world :=
  mkWorld (site w) (startup w) (current_url w) (S (rounds w)) (S (loaded w))
          (read_only w) (files w) (sessions w) (cycle d ++ trace w).

Definition after_refused_click (d : driver) (w : world) : world :=
  mkWorld (site w) (startup w) (current_url w) (S (rounds w)) (loaded w)
          (read_only w) (files w) (sessions w)
          (Clicked d load_more_control :: Waited d load_more_control :: trace w).

(** A round fails with [e]: the wait raises [e], or the wait returns and
    the click raises [e]. *)
Definition fails (r : round) (e : exn) : Prop :=
  wait_outcome r = Raise e
  \/ (wait_outcome r = Ok tt /\ click_outcome r = Raise e).

(** How the loop is meant to end: the wait times out, or the click is
    intercepted. *)
Definition stops (r : round) : Prop :=
  wait_outcome r = Raise TimeoutException
  \/ (wait_outcome r = Ok tt /\ click_outcome r = Raise ElementClickInterceptedException).

(** What [accept_cookies] and [click_load_more] do with an exception. *)
Definition swallowed (e : exn) : result unit :=
  if is_click_or_timeout e then Ok tt else Raise e.

(** Whatever makes the round fail is a timeout or an intercepted click. *)
Definition gives_way (r : round) : Prop :=
  forall e, fails r e -> is_click_or_timeout e = true.

(** Every round at the "load more" control from round [k] on goes through. *)
Definition always_clickable (pg : page) (k : nat) : Prop :=
  forall i, k <= i -> load_more pg i = mkRound (Ok tt) (Ok tt).

(** The pages navigated to, latest first. *)
Fixpoint visited (tr : list action) : list pystr :=
  match tr with
  | [] => []
  | Navigated _ url :: tr' => url :: visited tr'
  | _ :: tr' => visited tr'
  end.

(** ** The reader at work *)

Section ReadingBack.
Import Csv.






End ReadingBack.

(** ** Writing a file *)

(** The world after [text] was written to the file on top. *)
Definition wrote (path text : pystr) (w : world) : world :=
  mkWorld (site w) (startup w) (current_url w) (rounds w) (loaded w) (read_only w)
          (append_to path text (files w)) (sessions w) (Wrote path text :: trace w).

(** The world once [path] is open for writing: an empty file on top. *)
Definition opened (path : pystr) (w : world) : world :=
  mkWorld (site w) (startup w) (current_url w) (rounds w) (loaded w) (read_only w)
          ((path, []) :: files w) (sessions w) (Opened path :: trace w).

(** The world after the lines [rows] were written to [path], one write
    each. *)
Definition after_rows (path : pystr) (rows : list pystr) (w : world) : world :=
  fold_left (fun w1 row => wrote path row w1) rows w.

(** The lines of that file. *)
Definition lines_of (ps : list Product) : list pystr :=
  map Csv.format_row (PRODUCT_FIELDS :: map product_row ps).

(** The file [write_products_to_csv] makes of [ps]. *)
Definition csv_of (ps : list Product) : pystr :=
  concat (map Csv.format_row (PRODUCT_FIELDS :: map product_row ps)).

(** The world [write_products_to_csv] leaves when every entry is a
    product and the path can be written. *)
Definition written (path : pystr) (ps : list Product) (w : world) : world :=
  note (Released path) (after_rows path (lines_of ps) (opened path w)).

(** The files as a program sees them: the content by path. *)
Definition view (w : world) (path : pystr) : option pystr := file_content path (files w).

(** ** Sites and the pass of the loop over one page *)

(** The environment raises nothing but [Exception]s on a page. *)
Definition raises_exceptions (pg : page) : Prop :=
  (forall e, navigation pg = Raise e -> is_Exception e = true)
  /\ (forall e, wait_outcome (consent pg) = Raise e -> is_Exception e = true)
  /\ (forall e, click_outcome (consent pg) = Raise e -> is_Exception e = true)
  /\ (forall k e, wait_outcome (load_more pg k) = Raise e -> is_Exception e = true)
  /\ (forall k e, click_outcome (load_more pg k) = Raise e -> is_Exception e = true)
  /\ (forall k e, document pg k = Raise e -> is_Exception e = true).

(** Some round at the "load more" control fails, after rounds that all
    succeed. *)
Definition loop_finite (pg : page) : Prop :=
  exists n e,
    (forall i, i < n -> load_more pg i = mkRound (Ok tt) (Ok tt))
    /\ fails (load_more pg n) e.

(** Every listing of every document of the page yields a product. *)
Definition extracts_all (pg : page) : Prop :=
  forall k soup, document pg k = Ok soup ->
    Forall (fun n => get_product n <> Ok None) (Soup.select (Py.lit "thumbnail") soup).

Definition well_behaved (pg : page) : Prop :=
  raises_exceptions pg /\ loop_finite pg /\ extracts_all pg.

(** The page lets the scraper through: it can be navigated to, the consent
    step gives way, [n] clicks load more of it and then the loop stops, and
    the document as it stands then is [soup]. *)
Definition serves (pg : page) (n : nat) (soup : Soup.node) : Prop :=
  navigation pg = Ok tt
  /\ gives_way (consent pg)
  /\ (forall i, i < n -> load_more pg i = mkRound (Ok tt) (Ok tt))
  /\ stops (load_more pg n)
  /\ document pg n = Ok soup.

(** What the scraper gets from a page: nothing when the page cannot be
    reached, else the products of the listings of the document it ends up
    with, when extraction succeeds for each of them. *)
Definition offers (pg : page) (ps : list Product) : Prop :=
  (exists e, navigation pg = Raise e /\ is_Exception e = true /\ ps = [])
  \/ (exists n soup, serves pg n soup /\ get_page_products soup = Ok (map Some ps)).

(** The body of the loop of [get_all_products]. *)
Definition page_step (d : driver) (entry : pystr * pystr) : exec unit :=
  let '(page_name, page_url) := entry in
  products <~ get_page d page_url ;;
  if truthy products
  then write_products_to_csv (page_name ++ Py.lit ".csv") products
  else ret tt.

(** The pass of the loop for one page, on the files as seen by path. *)
Definition page_written (catalogue : pystr -> list Product) (ro : pystr -> bool)
    (v : pystr -> option pystr) (entry : pystr * pystr) (path : pystr) : option pystr :=
  if Py.eqb (fst entry ++ Py.lit ".csv") path
     && truthy (catalogue (snd entry))
     && negb (ro (fst entry ++ Py.lit ".csv"))
  then Some (csv_of (catalogue (snd entry)))
  else v path.

(** The session once a browser has been started. *)
Definition started (w : world) : world :=
  note (Started (sessions w))
       (mkWorld (site w) (startup w) None 0 0 (read_only w) (files w)
                (S (sessions w)) (trace w)).

(* ===================================================================== *)
(** * Sample documents and sites *)
(* ===================================================================== *)

Definition elem (name : string) (classes : list string) (attrs : list (string * string))
    (contents : list Soup.node) : Soup.node :=
  Soup.Tag (Py.lit name) (map Py.lit classes)
           (map (fun kv => (Py.lit (fst kv), Py.lit (snd kv))) attrs) contents.

Definition txt (s : string) : Soup.node := Soup.NavigableString (Py.lit s).

Definition star : Soup.node := elem "span" ["ws-icon"; "ws-icon-star"] [] [].

Definition listing_asus : Soup.node :=
  elem "div" ["col-md-4"; "thumbnail"] []
    [ elem "div" ["caption"] []
        [ elem "h4" ["price"; "float-end"] [] [txt "$299.00"];
          elem "h4" [] []
            [ elem "a" ["title"] [("href", "/product/1"); ("title", "Asus X")]
                [txt "Asus X..."] ];
          elem "p" ["description"] [] [txt "ok"] ];
      elem "div" ["ratings"] []
        [ elem "p" ["review-count"; "float-end"] [] [txt "12 reviews"];
          elem "p" [] [("data-rating", "3")] [star; star; star] ] ].

Definition listing_dell : Soup.node :=
  elem "div" ["col-md-4"; "thumbnail"] []
    [ elem "a" ["title"] [("title", "Dell Y")] [] ].

Definition document_two : Soup.node :=
  elem "[document]" [] []
    [ elem "html" [] []
        [ elem "body" [] []
            [ elem "div" ["row"] [] [listing_asus; txt " "; listing_dell] ] ] ].

Definition record_asus : Product :=
  mkProduct (Py.lit "Asus X") (Py.lit "ok") 299.0%float 3 12.
Definition record_dell : Product :=
  mkProduct (Py.lit "Dell Y") (Py.lit "") 0.0%float 0 0.

(** A listing with a title attribute and a price that is no number. *)
Definition listing_unpriced : Soup.node :=
  elem "div" ["col-md-4"; "thumbnail"] []
    [ elem "h4" ["price"] [] [txt "on request"];
      elem "a" ["title"] [("title", "Asus X")] [txt "Asus X"] ].

(** A listing whose title element has no [title] attribute. *)
Definition listing_untitled : Soup.node :=
  elem "div" ["col-md-4"; "thumbnail"] []
    [ elem "h4" ["price"] [] [txt "$10.00"];
      elem "a" ["title"] [("href", "/product/7")] [txt "Lenovo"] ].

Definition document_mixed : Soup.node :=
  elem "[document]" [] [] [ elem "div" ["row"] [] [listing_untitled; listing_dell] ].

Definition document_untitled : Soup.node :=
  elem "[document]" [] [] [ elem "div" ["row"] [] [listing_untitled] ].

(** A page without listings. *)
Definition document_empty : Soup.node :=
  elem "[document]" [] [] [ elem "div" ["row"] [] [txt "No products"] ].

(** A description with non-breaking spaces, blanks around it and a run of
    blanks inside. *)
Definition padded_description : Soup.node :=
  Soup.Tag (Py.lit "p") [Py.lit "description"] []
    [Soup.NavigableString
       ([32; 10]%N ++ Py.lit "Asus" ++ [nbsp; nbsp; 32]%N ++ Py.lit "X" ++ [nbsp; 10]%N)].

Definition listing_padded : Soup.node :=
  elem "div" ["thumbnail"] []
    [ elem "a" ["title"] [("title", "Asus X")] []; padded_description ].


(** A page without consent banner whose "load more" control can be clicked
    [n] times and is then no longer clickable. *)
Definition without_banner : round := mkRound (Raise TimeoutException) (Ok tt).

Definition clickable_times (n : nat) (i : nat) : round :=
  if Nat.ltb i n then mkRound (Ok tt) (Ok tt) else mkRound (Raise TimeoutException) (Ok tt).

Definition page_of (n : nat) (doc : Soup.node) : page :=
  mkPage (Ok tt) without_banner (clickable_times n) (fun _ => Ok doc).

Definition on_page (pg : page) (url : pystr) : world :=
  mkWorld (fun _ => pg) (Ok tt) (Some url) 0 0 (fun _ => false) [] 1 [].

(** Every page of the site shows [doc], without banner or "load more". *)
Definition site_showing (doc : Soup.node) : world :=
  mkWorld (fun _ => page_of 0 doc) (Ok tt) None 0 0 (fun _ => false) [] 0 [].


Definition home_csv : pystr := Py.lit "home.csv".


(** A page whose "load more" control can be clicked for ever. *)
Definition page_endless (doc : Soup.node) : page :=
  mkPage (Ok tt) (mkRound (Raise TimeoutException) (Ok tt))
         (fun _ => mkRound (Ok tt) (Ok tt)) (fun _ => Ok doc).

(** A page that cannot be reached: the navigation raises [e]. *)
Definition page_unreachable (e : exn) : page :=
  mkPage (Raise e) (mkRound (Ok tt) (Ok tt))
         (fun _ => mkRound (Raise TimeoutException) (Ok tt))
         (fun _ => Raise WebDriverException).

(** A page whose "load more" control can be clicked [n] times, after which
    the session is lost. *)
Definition page_breaking (n : nat) (doc : Soup.node) : page :=
  mkPage (Ok tt) without_banner
         (fun i => if Nat.ltb i n then mkRound (Ok tt) (Ok tt)
                   else mkRound (Raise WebDriverException) (Ok tt))
         (fun _ => Ok doc).

(** A page whose first two clicks load the listings. *)
Definition page_growing : page :=
  mkPage (Ok tt) without_banner (clickable_times 2)
         (fun k => if Nat.ltb k 2 then Ok document_untitled else Ok document_two).

(** A page whose consent step loses the session. *)
Definition page_losing_session (doc : Soup.node) : page :=
  mkPage (Ok tt) (mkRound (Raise WebDriverException) (Ok tt)) (clickable_times 0)
         (fun _ => Ok doc).

(** A site on which the laptops page shows two listings after two clicks,
    the computers page cannot be reached and the other pages show no
    listing. *)
Definition laptops_url : pystr := HOME_URL ++ Py.lit "computers/laptops".

Definition site_of_laptops (url : pystr) : page :=
  if Py.eqb url laptops_url then page_growing
  else if Py.eqb url (HOME_URL ++ Py.lit "computers")
       then page_unreachable WebDriverException
       else page_of 0 document_empty.

Definition world_of_laptops : world :=
  mkWorld site_of_laptops (Ok tt) None 0 0 (fun _ => false)
          [(Py.lit "notes.txt", Py.lit "kept")] 0 [].

Definition catalogue_of_laptops (url : pystr) : list Product :=
  if Py.eqb url laptops_url then [record_asus; record_dell] else [].

(** A site on which the laptops page has a listing without title
    attribute, the computers page cannot be reached and the other pages
    show no listing. *)
Definition world_of_mixed : world :=
  mkWorld (fun url => if Py.eqb url laptops_url then page_of 0 document_mixed
                      else if Py.eqb url (HOME_URL ++ Py.lit "computers")
                           then page_unreachable WebDriverException
                           else page_of 0 document_empty)
          (Ok tt) None 0 0 (fun _ => false) [] 0 [].

(* ===================================================================== *)
(** * Text: [strip], [replace], [split] *)
(* ===================================================================== *)

Lemma lstrip_split s :
  exists l, s = l ++ Py.lstrip s /\ Forall (fun c => Py.isspace c = true) l.
Proof.
  induction s as [|c s IH]; simpl.
  - exists []. split; constructor.
  - destruct (Py.isspace c) eqn:E.
    + destruct IH as (l & Hs & Hl). exists (c :: l). split.
      * simpl. now rewrite <- Hs.
      * now constructor.
    + exists []. split; constructor.
Qed.

Lemma lstrip_head s c rest : Py.lstrip s = c :: rest -> Py.isspace c = false.
Proof.
  induction s as [|a s IH]; simpl; [discriminate|].
  destruct (Py.isspace a) eqn:E; [exact IH|].
  intros H. injection H as -> _. exact E.
Qed.

Lemma strip_split s :
  exists l r, s = l ++ Py.strip s ++ r
    /\ Forall (fun c => Py.isspace c = true) l
    /\ Forall (fun c => Py.isspace c = true) r.
Proof.
  unfold Py.strip, Py.rstrip.
  destruct (lstrip_split s) as (l & Hs & Hl).
  destruct (lstrip_split (rev (Py.lstrip s))) as (r & Hr & Hrs).
  exists l, (rev r). repeat split; [|assumption|].
  - rewrite <- rev_app_distr, <- Hr, rev_involutive. exact Hs.
  - apply Forall_rev. exact Hrs.
Qed.

Lemma strip_last s c front : Py.strip s = front ++ [c] -> Py.isspace c = false.
Proof.
  unfold Py.strip, Py.rstrip. intros H.
  apply (f_equal (@rev N)) in H. rewrite rev_involutive, rev_app_distr in H.
  simpl in H. eapply lstrip_head. exact H.
Qed.

Lemma strip_head s c rest : Py.strip s = c :: rest -> Py.isspace c = false.
Proof.
  unfold Py.strip, Py.rstrip. intros H.
  destruct (lstrip_split (rev (Py.lstrip s))) as (l0 & Hs & _).
  apply (f_equal (@rev N)) in Hs.
  rewrite rev_involutive, rev_app_distr, H in Hs. simpl in Hs.
  eapply lstrip_head. exact Hs.
Qed.

Lemma replace_char c new s :
  Py.replace [c] new s = flat_map (fun x => if N.eqb c x then new else [x]) s.
Proof.
  unfold Py.replace.
  induction s as [|x s IH]; [reflexivity|].
  cbn [Py.replace_from Py.startswith flat_map length Nat.sub].
  rewrite andb_true_r.
  destruct (N.eqb c x); rewrite IH; reflexivity.
Qed.

Lemma replace_nbsp s : Py.replace [nbsp] (Py.lit " ") s = map nbsp_to_space s.
Proof.
  rewrite replace_char. induction s as [|x s IH]; [reflexivity|].
  cbn [flat_map map]. rewrite IH. unfold nbsp_to_space.
  rewrite (N.eqb_sym x nbsp). destruct (N.eqb nbsp x); reflexivity.
Qed.

Lemma split_from_nonempty sep k cur s : Py.split_from sep k cur s <> [].
Proof.
  revert k cur. induction s as [|c s IH]; intros k cur; simpl.
  - discriminate.
  - destruct k; [|apply IH].
    destruct (Py.startswith sep (c :: s)); [discriminate|apply IH].
Qed.

Lemma getitem_first A (a : A) l : Py.getitem (a :: l) 0 = Ok a.
Proof.
  unfold Py.getitem. cbn -[Z.of_nat].
  replace (Z.of_nat (S (length l)) >? 0)%Z with true; [reflexivity|].
  symmetry. apply Z.gtb_lt. lia.
Qed.

(* ===================================================================== *)
(** * Numbers: [int] and [str] *)
(* ===================================================================== *)




Lemma c_lstrip_all s :
  Forall (fun c => Py.c_isspace c = false) s -> Py.c_lstrip s = s.
Proof. intros H. destruct H as [|c s Hc _]; [reflexivity|]. cbn. now rewrite Hc. Qed.

Lemma c_strip_all s :
  Forall (fun c => Py.c_isspace c = false) s -> Py.c_strip s = s.
Proof.
  intros H. unfold Py.c_strip. rewrite (c_lstrip_all H).
  rewrite c_lstrip_all by (apply Forall_rev; exact H). apply rev_involutive.
Qed.




Lemma split_space_first s : forall cur,
  exists rest, Py.split_from [32%N] 0 cur s = (rev cur ++ before_space s) :: rest.
Proof.
  induction s as [|c s IH]; intros cur.
  - exists []. cbn. now rewrite app_nil_r.
  - cbn [Py.split_from before_space].
    cbn [Py.startswith length Nat.sub]. rewrite andb_true_r.
    destruct (N.eqb 32 c).
    + eexists. rewrite app_nil_r. reflexivity.
    + destruct (IH (c :: cur)) as [rest E]. exists rest. rewrite E.
      cbn [rev]. rewrite <- app_assoc. reflexivity.
Qed.

Lemma review_count_value_token e :
  review_count_value e = Py.int_of_str (before_space (Soup.text e)).
Proof.
  unfold review_count_value, Py.split. change (Py.lit " ") with [32%N].
  cbn [rbind].
  destruct (@split_space_first (Soup.text e) []) as [rest E]. rewrite E.
  rewrite getitem_first. reflexivity.
Qed.

Lemma before_space_tail s :
  exists tail, s = before_space s ++ tail /\ (tail = [] \/ exists t, tail = 32%N :: t).
Proof.
  induction s as [|c s (tail & E & T)].
  - exists []. auto.
  - cbn [before_space]. destruct (N.eqb_spec 32 c) as [<-|H].
    + exists (32%N :: s). eauto.
    + exists tail. split; [cbn [app]; f_equal; exact E|exact T].
Qed.

Lemma c_lstrip_split s :
  exists l, s = l ++ Py.c_lstrip s /\ Forall (fun c => Py.c_isspace c = true) l.
Proof.
  induction s as [|c s (l & E & H)]; cbn.
  - exists []. split; constructor.
  - destruct (Py.c_isspace c) eqn:C.
    + exists (c :: l). split; [cbn; f_equal; exact E|now constructor].
    + exists []. split; constructor.
Qed.

Lemma c_strip_split s :
  exists l r, s = l ++ Py.c_strip s ++ r
    /\ Forall (fun c => Py.c_isspace c = true) l
    /\ Forall (fun c => Py.c_isspace c = true) r.
Proof.
  unfold Py.c_strip.
  destruct (c_lstrip_split s) as (l & Hs & Hl).
  destruct (c_lstrip_split (rev (Py.c_lstrip s))) as (r & Hr & Hrs).
  exists l, (rev r). split; [|split; [assumption|apply Forall_rev; exact Hrs]].
  rewrite <- rev_app_distr, <- Hr, rev_involutive. exact Hs.
Qed.

Lemma digits_chars s : forall acc b n,
  Py.digits s acc b = Some n -> Forall in_numeral s.
Proof.
  induction s as [|c s IH]; intros acc b n H; [constructor|].
  cbn in H. destruct (Py.is_digit c) eqn:D.
  - constructor; [left; exact D|eapply IH; exact H].
  - destruct ((c =? 95)%N && b) eqn:U; [|discriminate].
    apply andb_true_iff in U. destruct U as [U _]. apply N.eqb_eq in U.
    constructor; [right; left; exact U|eapply IH; exact H].
Qed.

Lemma split_sign_chars s neg body :
  Py.split_sign s = (neg, body) -> Forall in_numeral body -> Forall in_numeral s.
Proof.
  destruct s as [|c r]; cbn; [intros H; injection H as <- <-; auto|].
  destruct (N.eqb_spec c 45) as [->|H45].
  - intros H; injection H as <- <-. constructor; [unfold in_numeral; auto|assumption].
  - destruct (N.eqb_spec c 43) as [->|H43]; intros H; injection H as <- <-.
    + constructor; [unfold in_numeral; auto|assumption].
    + auto.
Qed.

Lemma digit_range c : Py.is_digit c = true -> (48 <= c <= 57)%N.
Proof.
  unfold Py.is_digit. intros H. apply andb_true_iff in H. destruct H as [H1 H2].
  apply N.leb_le in H1, H2. lia.
Qed.

Lemma small_cases (P : N -> Prop) (lo : N) (k : nat) :
  (forall i, i < k -> P (lo + N.of_nat i)%N) ->
  forall c, (lo <= c < lo + N.of_nat k)%N -> P c.
Proof.
  intros H c Hc. replace c with (lo + N.of_nat (N.to_nat (c - lo)))%N by lia.
  apply H. lia.
Qed.

Lemma in_numeral_no_blank c :
  in_numeral c -> Py.isspace c = false /\ Py.c_isspace c = false.
Proof.
  intros [D | [-> | [-> | ->]]]; [|vm_compute; auto..].
  apply digit_range in D.
  apply (@small_cases (fun c => Py.isspace c = false /\ Py.c_isspace c = false) 48 10);
    [|lia].
  intros i Hi. do 10 (destruct i as [|i]; [vm_compute; auto|]). lia.
Qed.

Lemma c_isspace_range c : Py.c_isspace c = true -> (9 <= c < 9 + N.of_nat 5)%N \/ c = 32%N.
Proof.
  unfold Py.c_isspace. intros H. apply orb_true_iff in H. destruct H as [H|H].
  - apply andb_true_iff in H. destruct H as [H1 H2]. apply N.leb_le in H1, H2. lia.
  - apply N.eqb_eq in H. auto.
Qed.

Lemma c_isspace_isspace c : Py.c_isspace c = true -> Py.isspace c = true.
Proof.
  intros H. apply c_isspace_range in H. destruct H as [H | ->]; [|reflexivity].
  apply (@small_cases (fun c => Py.isspace c = true) 9 5); [|exact H].
  intros i Hi. do 5 (destruct i as [|i]; [reflexivity|]). lia.
Qed.

Lemma digit_value_small c v : Py.digit_value c = Some v -> (v < 10)%N.
Proof.
  unfold Py.digit_value.
  destruct (find _ Py.digit_zeros) as [z|] eqn:F; [|discriminate].
  intros H. injection H as <-. apply find_some in F. destruct F as [_ F].
  apply andb_true_iff in F. destruct F as [F1 F2].
  apply N.leb_le in F1. apply N.ltb_lt in F2. lia.
Qed.

(** A character that [int] reads as a blank is a blank. *)
Lemma to_ascii_blank c : Py.c_isspace (Py.to_ascii c) = true -> Py.isspace c = true.
Proof.
  unfold Py.to_ascii. destruct (c <? 127)%N; [apply c_isspace_isspace|].
  destruct (Py.isspace c); [reflexivity|].
  destruct (Py.digit_value c) as [v|] eqn:D; [|discriminate].
  apply digit_value_small in D. intros H. exfalso.
  assert (Py.c_isspace (48 + v) = false) as E; [|congruence].
  apply (@small_cases (fun d => Py.c_isspace d = false) 48 10); [|lia].
  intros i Hi. do 10 (destruct i as [|i]; [reflexivity|]). lia.
Qed.

(** A character that [int] reads as part of a numeral is no blank. *)
Lemma to_ascii_numeral c : in_numeral (Py.to_ascii c) -> Py.isspace c = false.
Proof.
  intros H. pose proof (in_numeral_no_blank H) as [S _]. revert H S.
  unfold Py.to_ascii. destruct (c <? 127)%N; [auto|].
  destruct (Py.isspace c); [|reflexivity].
  intros _ S. discriminate S.
Qed.

Lemma lstrip_blanks l r :
  Forall (fun c => Py.isspace c = true) l -> Py.lstrip (l ++ r) = Py.lstrip r.
Proof. induction 1 as [|c l Hc _ IH]; [reflexivity|]. cbn. now rewrite Hc. Qed.

Lemma until_blank_app b r :
  Forall (fun c => Py.isspace c = false) b -> until_blank (b ++ r) = b ++ until_blank r.
Proof. induction 1 as [|c l Hc _ IH]; [reflexivity|]. cbn. now rewrite Hc, IH. Qed.

(** If [int] accepts the text before the first space, it accepts the
    leading token, with the same value. *)
Lemma int_of_leading_token s z :
  Py.int_of_str (before_space s) = Ok z -> Py.int_of_str (leading_token s) = Ok z.
Proof.
  intros H.
  destruct (before_space_tail s) as (tail & Es & Htail).
  remember (before_space s) as t eqn:Ht. clear Ht.
  destruct (c_strip_split (map Py.to_ascii t)) as (w1 & w2 & Ea & Hw1 & Hw2).
  unfold Py.int_of_str in H.
  remember (Py.c_strip (map Py.to_ascii t)) as b eqn:Hb0. clear Hb0.
  assert (Hb : Forall in_numeral b /\ b <> []).
  {
    destruct (Py.split_sign b) as [neg body] eqn:Sg.
    destruct (Py.digits body 0 false) as [n|] eqn:D; [|discriminate].
    split.
    - eapply split_sign_chars; [exact Sg|eapply digits_chars; exact D].
    - intros ->. cbn in Sg. injection Sg as <- <-. discriminate D. }
  destruct Hb as [Hnum Hne].
  apply map_eq_app in Ea. destruct Ea as (W1 & r1 & Et & E1 & Er1).
  apply map_eq_app in Er1. destruct Er1 as (B & W2 & Er & EB & E2).
  subst r1.
  assert (HW1 : Forall (fun c => Py.isspace c = true) W1).
  { rewrite <- E1 in Hw1. rewrite Forall_map in Hw1.
    eapply Forall_impl; [|exact Hw1]. intros c. apply to_ascii_blank. }
  assert (HW2 : Forall (fun c => Py.isspace c = true) W2).
  { rewrite <- E2 in Hw2. rewrite Forall_map in Hw2.
    eapply Forall_impl; [|exact Hw2]. intros c. apply to_ascii_blank. }
  assert (HB : Forall (fun c => Py.isspace c = false) B).
  { rewrite <- EB in Hnum. rewrite Forall_map in Hnum.
    eapply Forall_impl; [|exact Hnum]. intros c. apply to_ascii_numeral. }
  assert (L : leading_token s = B).
  { unfold leading_token. rewrite Es, Et, <- !app_assoc.
    rewrite (lstrip_blanks _ HW1).
    destruct B as [|c0 B']; [cbn in EB; congruence|].
    inversion HB as [|? ? Hc0 HB']. subst.
    cbn [app Py.lstrip]. rewrite Hc0.
    change (c0 :: B' ++ W2 ++ tail) with ((c0 :: B') ++ W2 ++ tail).
    rewrite (until_blank_app _ HB).
    replace (until_blank (W2 ++ tail)) with (@nil N); [apply app_nil_r|].
    destruct HW2 as [|c2 W2' Hc2 _].
    - destruct Htail as [-> | [t' ->]]; reflexivity.
    - cbn. now rewrite Hc2. }
  rewrite L. unfold Py.int_of_str. rewrite EB.
  rewrite c_strip_all; [exact H|].
  eapply Forall_impl; [|exact Hnum]. intros c Hc. apply (in_numeral_no_blank Hc).
Qed.

(* ===================================================================== *)
(** * Extraction of one product *)
(* ===================================================================== *)

Lemma int_of_str_raises s e : Py.int_of_str s = Raise e -> e = ValueError.
Proof.
  unfold Py.int_of_str.
  destruct (Py.split_sign _) as [neg body].
  destruct (Py.digits body 0 false); [discriminate|].
  intros H. now injection H.
Qed.

Lemma float_of_str_raises s e : Py.float_of_str s = Raise e -> e = ValueError.
Proof.
  unfold Py.float_of_str.
  destruct (Py.underscores_ok _ _); [|intros H; now injection H].
  destruct (Py.split_sign _) as [neg body].
  destruct (_ || _); [discriminate|].
  destruct (Py.eqb _ _); [discriminate|].
  destruct (Py.decimal neg body); [discriminate|].
  intros H. now injection H.
Qed.

Lemma review_count_value_raises d e : review_count_value d = Raise e -> e = ValueError.
Proof.
  unfold review_count_value, Py.split. cbn [Py.lit list_ascii_of_string map rbind].
  destruct (Py.split_from _ 0 [] (Soup.text d)) as [|tok rest] eqn:E.
  - now apply split_from_nonempty in E.
  - rewrite getitem_first. cbn [rbind]. apply int_of_str_raises.
Qed.

Lemma getitem_raises x key e :
  Soup.getitem x key = Raise e -> e = TypeError \/ e = KeyError.
Proof.
  destruct x as [[s|nm cl attrs cs]|]; simpl.
  - intros H; injection H; auto.
  - destruct (Soup.lookup key attrs); [discriminate|]. intros H; injection H; auto.
  - intros H; injection H; auto.
Qed.

(** What the [try] block raises is an [Exception]. *)
Lemma get_product_try_raises n e :
  get_product_try n = Raise e -> e = TypeError \/ e = KeyError \/ e = ValueError.
Proof.
  unfold get_product_try.
  destruct (Soup.getitem _ _) as [t|e0] eqn:Et; cbn [rbind].
  2:{ intros H. injection H as <-. apply getitem_raises in Et. tauto. }
  destruct (Soup.select_one (Py.lit "price") n) as [pe|].
  - destruct (price_value pe) as [f|e1] eqn:Ep; cbn [rbind].
    2:{ intros H. injection H as <-. apply float_of_str_raises in Ep. tauto. }
    destruct (Soup.select_one (Py.lit "review-count") n) as [re|].
    + destruct (review_count_value re) as [k|e2] eqn:Er; cbn [rbind]; [discriminate|].
      intros H. injection H as <-. apply review_count_value_raises in Er. tauto.
    + discriminate.
  - cbn [rbind].
    destruct (Soup.select_one (Py.lit "review-count") n) as [re|].
    + destruct (review_count_value re) as [k|e2] eqn:Er; cbn [rbind]; [discriminate|].
      intros H. injection H as <-. apply review_count_value_raises in Er. tauto.
    + discriminate.
Qed.

(** [get_product] returns [None] or a product. *)
Lemma get_product_total n :
  get_product n = Ok None \/ exists p : Product, get_product n = Ok (Some p).
Proof.
  unfold get_product.
  destruct (get_product_try n) as [p|e] eqn:E.
  - right. now exists p.
  - left. apply get_product_try_raises in E.
    destruct E as [-> | [-> | ->]]; reflexivity.
Qed.

(** C8.  [get_product] is total: whatever the [try] block raises is an
    [Exception] and is caught, so for every node the function returns
    [None] or a product and never hands an exception to its caller. *)
Theorem get_product_never_raises (product_soup : Soup.node) :
  get_product product_soup = Ok None
  \/ exists p : Product, get_product product_soup = Ok (Some p).
Proof.
  destruct (get_product_try product_soup) as [p|e] eqn:E.
  - right. exists p. unfold get_product. rewrite E. reflexivity.
  - left. unfold get_product. rewrite E.
    destruct (@get_product_try_raises product_soup e E) as [-> | [-> | ->]]; reflexivity.
Qed.

Lemma get_product_some n p : get_product n = Ok (Some p) <-> get_product_try n = Ok p.
Proof.
  unfold get_product. destruct (get_product_try n) as [q|e].
  - split; intros H; injection H as ->; reflexivity.
  - split; [|discriminate]. destruct (is_Exception e); discriminate.
Qed.

Lemma get_product_none n : get_product n = Ok None <-> exists e, get_product_try n = Raise e.
Proof.
  unfold get_product. destruct (get_product_try n) as [q|e] eqn:E.
  - split; [discriminate|]. intros [e H]. discriminate.
  - split; [eauto|]. intros _. apply get_product_try_raises in E.
    destruct E as [-> | [-> | ->]]; reflexivity.
Qed.

(** The fields of a record the [try] block returns. *)
Lemma get_product_try_fields n p :
  get_product_try n = Ok p ->
  Soup.getitem (Soup.select_one (Py.lit "title") n) (Py.lit "title") = Ok (title p)
  /\ description p =
       match Soup.select_one (Py.lit "description") n with
       | Some d => description_text d
       | None => Py.lit ""
       end
  /\ match Soup.select_one (Py.lit "price") n with
     | Some e => price_value e = Ok (price p)
     | None => price p = zero
     end
  /\ rating p =
       Z.of_nat (length (Soup.find_all (Py.lit "span") (Py.lit "ws-icon-star") n))
  /\ match Soup.select_one (Py.lit "review-count") n with
     | Some e => review_count_value e = Ok (num_of_reviews p)
     | None => num_of_reviews p = 0%Z
     end.
Proof.
  unfold get_product_try.
  destruct (Soup.getitem _ _) as [t|] eqn:Et; cbn [rbind]; [|discriminate].
  destruct (Soup.select_one (Py.lit "price") n) as [pe|];
    [destruct (price_value pe) as [f|] eqn:Ep; cbn [rbind]; [|discriminate]|];
    (destruct (Soup.select_one (Py.lit "review-count") n) as [re|];
     [destruct (review_count_value re) as [k|] eqn:Er; cbn [rbind]; [|discriminate]|]);
    cbn [rbind]; intros H; injection H as <-; cbn; auto.
Qed.

(** C5, amended.  For every listing whose title element carries a title
    attribute, and whose price and review-count elements, where present,
    hold texts that [float] and [int] accept, [get_product] returns a
    record whose title is that attribute's value. *)
Theorem get_product_title (product_soup : Soup.node) (v : pystr) :
  Soup.getitem (Soup.select_one (Py.lit "title") product_soup) (Py.lit "title") = Ok v ->
  (forall e, Soup.select_one (Py.lit "price") product_soup = Some e ->
             exists f, price_value e = Ok f) ->
  (forall e, Soup.select_one (Py.lit "review-count") product_soup = Some e ->
             exists k, review_count_value e = Ok k) ->
  exists p : Product, get_product product_soup = Ok (Some p) /\ title p = v.
Proof.
  intros Ht Hp Hr.
  assert (exists p, get_product_try product_soup = Ok p /\ title p = v) as (p & E & T).
  { unfold get_product_try. rewrite Ht. cbn [rbind].
    destruct (Soup.select_one (Py.lit "price") product_soup) as [pe|].
    - destruct (Hp pe eq_refl) as [f ->]. cbn [rbind].
      destruct (Soup.select_one (Py.lit "review-count") product_soup) as [re|].
      + destruct (Hr re eq_refl) as [k ->]. cbn [rbind]. eexists. split; reflexivity.
      + eexists. split; reflexivity.
    - cbn [rbind].
      destruct (Soup.select_one (Py.lit "review-count") product_soup) as [re|].
      + destruct (Hr re eq_refl) as [k ->]. cbn [rbind]. eexists. split; reflexivity.
      + eexists. split; reflexivity. }
  exists p. split; [|exact T]. now apply get_product_some.
Qed.

(** C5 as stated fails: a listing with the title attribute "Asus X" and
    the price text "on request" yields no record. *)
Lemma title_present_but_no_record :
  Soup.getitem (Soup.select_one (Py.lit "title") listing_unpriced) (Py.lit "title")
  = Ok (Py.lit "Asus X")
  /\ get_product listing_unpriced = Ok None
  /\ ~ (forall (n : Soup.node) (v : pystr),
          Soup.getitem (Soup.select_one (Py.lit "title") n) (Py.lit "title") = Ok v ->
          exists p, get_product n = Ok (Some p) /\ title p = v).
Proof.
  assert (T : Soup.getitem (Soup.select_one (Py.lit "title") listing_unpriced) (Py.lit "title")
              = Ok (Py.lit "Asus X")) by (vm_compute; reflexivity).
  assert (G : get_product listing_unpriced = Ok None) by (vm_compute; reflexivity).
  split; [exact T|]. split; [exact G|].
  intros H. destruct (H _ _ T) as (p & Hp & _). rewrite G in Hp. discriminate.
Qed.

(** C5, amended, at [listing_asus]. *)
Lemma get_product_title_witness :
  exists p : Product, get_product listing_asus = Ok (Some p) /\ title p = Py.lit "Asus X".
Proof.
  apply (@get_product_title listing_asus (Py.lit "Asus X")).
  - vm_compute. reflexivity.
  - intros e He. vm_compute in He. injection He as <-. eexists. vm_compute. reflexivity.
  - intros e He. vm_compute in He. injection He as <-. eexists. vm_compute. reflexivity.
Defined.

(** C9.  The fallback 0 for [num_of_reviews] is taken only when the
    review-count element is absent.  When the element is present and its
    leading token between blanks is no integer literal (more generally:
    when [int] rejects the text before its first space), no record is
    returned, whatever the title; when a record is returned, its
    [num_of_reviews] is what [int] read.  The same holds for the price: 0.0
    only when the element is absent, no record when [float] rejects the
    text, else what [float] read. *)
Theorem fallback_only_when_absent (product_soup : Soup.node) :
  (* review count *)
  (Soup.select_one (Py.lit "review-count") product_soup = None ->
   forall p, get_product product_soup = Ok (Some p) -> num_of_reviews p = 0%Z)
  /\ (forall e x, Soup.select_one (Py.lit "review-count") product_soup = Some e ->
        Py.int_of_str (leading_token (Soup.text e)) = Raise x ->
        get_product product_soup = Ok None)
  /\ (forall e x, Soup.select_one (Py.lit "review-count") product_soup = Some e ->
        review_count_value e = Raise x -> get_product product_soup = Ok None)
  /\ (forall e p, Soup.select_one (Py.lit "review-count") product_soup = Some e ->
        get_product product_soup = Ok (Some p) ->
        review_count_value e = Ok (num_of_reviews p))
  (* price *)
  /\ (Soup.select_one (Py.lit "price") product_soup = None ->
      forall p, get_product product_soup = Ok (Some p) -> price p = zero)
  /\ (forall e x, Soup.select_one (Py.lit "price") product_soup = Some e ->
        price_value e = Raise x -> get_product product_soup = Ok None)
  /\ (forall e p, Soup.select_one (Py.lit "price") product_soup = Some e ->
        get_product product_soup = Ok (Some p) ->
        price_value e = Ok (price p)).
Proof.
  assert (R : forall e x, Soup.select_one (Py.lit "review-count") product_soup = Some e ->
                review_count_value e = Raise x -> get_product product_soup = Ok None).
  { intros e x He Hx. apply get_product_none.
    destruct (get_product_try product_soup) as [p|e'] eqn:E; [|eauto].
    apply get_product_try_fields in E. rewrite He in E.
    destruct E as (_ & _ & _ & _ & E). congruence. }
  split; [|split; [|split; [exact R|]]].
  - intros Hn p Hp. apply get_product_some, get_product_try_fields in Hp.
    rewrite Hn in Hp. tauto.
  - intros e x He Hx.
    destruct (review_count_value e) as [z|x'] eqn:V; [|exact (R e x' He V)].
    rewrite review_count_value_token in V. apply int_of_leading_token in V.
    congruence.
  - split; [|split; [|split]].
    + intros e p He Hp. apply get_product_some, get_product_try_fields in Hp.
      rewrite He in Hp. tauto.
    + intros Hn p Hp. apply get_product_some, get_product_try_fields in Hp.
      rewrite Hn in Hp. tauto.
    + intros e x He Hx. apply get_product_none.
      destruct (get_product_try product_soup) as [p|e'] eqn:E; [|eauto].
      apply get_product_try_fields in E. rewrite He in E.
      destruct E as (_ & _ & E & _). congruence.
    + intros e p He Hp. apply get_product_some, get_product_try_fields in Hp.
      rewrite He in Hp. tauto.
Qed.

(** X5.  The rating of an extracted record is the number of star markers
    of the listing, and a record extracted from a listing without price
    element or without review-count element has the price 0.0 or no
    reviews. *)
Theorem rating_counts_star_markers (product_soup : Soup.node) (p : Product) :
  get_product product_soup = Ok (Some p) ->
  rating p = Z.of_nat (length (Soup.find_all (Py.lit "span") (Py.lit "ws-icon-star")
                                 product_soup))
  /\ (Soup.select_one (Py.lit "price") product_soup = None -> price p = zero)
  /\ (Soup.select_one (Py.lit "review-count") product_soup = None ->
      num_of_reviews p = 0%Z).
Proof.
  intros H. apply get_product_some, get_product_try_fields in H.
  destruct H as (_ & _ & P & R & N).
  split; [exact R|]. split; intros E.
  - rewrite E in P. exact P.
  - rewrite E in N. exact N.
Qed.

(** X5 at [listing_asus]. *)
Lemma rating_counts_star_markers_witness :
  rating record_asus
  = Z.of_nat (length (Soup.find_all (Py.lit "span") (Py.lit "ws-icon-star") listing_asus))
  /\ (Soup.select_one (Py.lit "price") listing_asus = None -> price record_asus = zero)
  /\ (Soup.select_one (Py.lit "review-count") listing_asus = None ->
      num_of_reviews record_asus = 0%Z).
Proof.
  apply (@rating_counts_star_markers listing_asus record_asus).
  vm_compute. reflexivity.
Defined.






(** X9.  [get_product] returns [None] in exactly four cases: there is no
    title element to subscript, the title element has no [title]
    attribute, [float] rejects the text of the price element, or [int]
    rejects the first piece of the text of the review-count element.  The
    description and the rating never cost a record. *)
Theorem get_product_none_exactly_when (product_soup : Soup.node) :
  get_product product_soup = Ok None
  <-> (Soup.getitem (Soup.select_one (Py.lit "title") product_soup) (Py.lit "title")
       = Raise TypeError
       \/ Soup.getitem (Soup.select_one (Py.lit "title") product_soup) (Py.lit "title")
          = Raise KeyError
       \/ (exists e, Soup.select_one (Py.lit "price") product_soup = Some e
                     /\ price_value e = Raise ValueError)
       \/ (exists e, Soup.select_one (Py.lit "review-count") product_soup = Some e
                     /\ review_count_value e = Raise ValueError)).
Proof.
  rewrite get_product_none. unfold get_product_try.
  destruct (Soup.getitem _ _) as [t|e0] eqn:Et; cbn [rbind].
  2:{ split; [intros _|eauto].
      destruct (getitem_raises _ _ Et) as [-> | ->]; auto. }
  destruct (Soup.select_one (Py.lit "price") product_soup) as [pe|].
  - destruct (price_value pe) as [f|e1] eqn:Ep; cbn [rbind].
    2:{ split; [intros _|eauto].
        rewrite (float_of_str_raises _ Ep) in Ep. right. right. left. eauto. }
    destruct (Soup.select_one (Py.lit "review-count") product_soup) as [re|].
    + destruct (review_count_value re) as [k|e2] eqn:Er; cbn [rbind].
      * split; [intros [e H]; discriminate|].
        intros [H | [H | [(e & H & H') | (e & H & H')]]]; try discriminate.
        -- injection H as <-. congruence.
        -- injection H as <-. congruence.
      * split; [intros _|eauto].
        rewrite (review_count_value_raises _ Er) in Er. right. right. right. eauto.
    + split; [intros [e H]; discriminate|].
      intros [H | [H | [(e & H & H') | (e & H & H')]]]; try discriminate.
      injection H as <-. congruence.
  - cbn [rbind].
    destruct (Soup.select_one (Py.lit "review-count") product_soup) as [re|].
    + destruct (review_count_value re) as [k|e2] eqn:Er; cbn [rbind].
      * split; [intros [e H]; discriminate|].
        intros [H | [H | [(e & H & H') | (e & H & H')]]]; try discriminate.
        injection H as <-. congruence.
      * split; [intros _|eauto].
        rewrite (review_count_value_raises _ Er) in Er. right. right. right. eauto.
    + split; [intros [e H]; discriminate|].
      intros [H | [H | [(e & H & H') | (e & H & H')]]]; discriminate.
Qed.

Lemma plain_cases c (P : N -> Prop) :
  plain c -> (forall k, (k < 10)%nat -> P (48 + N.of_nat k)%N) -> P 46%N -> P c.
Proof.
  intros [D | ->] Hd Hp; [|exact Hp].
  unfold Py.is_digit in D. apply andb_true_iff in D. destruct D as [A B].
  apply N.leb_le in A, B.
  replace c with (48 + N.of_nat (N.to_nat (c - 48)))%N by lia.
  apply Hd. lia.
Qed.

Ltac ten_cases :=
  do 10 (match goal with k : nat |- _ => destruct k; [vm_compute; auto 10|] end);
  exfalso; lia.

Lemma plain_facts c :
  plain c ->
  N.eqb 36 c = false /\ Py.to_ascii c = c /\ N.eqb c 95 = false
  /\ Py.c_isspace c = false /\ N.eqb c 45 = false /\ N.eqb c 43 = false
  /\ Py.lower c = c.
Proof.
  intros H. pattern c. apply (@plain_cases c _ H); [|vm_compute; auto 10].
  intros k Hk. ten_cases.
Qed.

Lemma digit_facts c :
  Py.is_digit c = true -> N.eqb c 105 = false /\ N.eqb c 110 = false /\ N.eqb c 46 = false.
Proof.
  intros H. pose proof H as H'. revert H'. pattern c.
  apply (@plain_cases c _ (or_introl H)); [|discriminate].
  intros k Hk _. ten_cases.
Qed.

Lemma replace_dollar s :
  Forall plain s -> Py.replace (Py.lit "$") (Py.lit "") (Py.lit "$" ++ s) = s.
Proof.
  intros H. change (Py.lit "$") with [36%N]. rewrite replace_char.
  assert (F : flat_map (fun x => if N.eqb 36 x then Py.lit "" else [x]) s = s).
  { induction H as [|c s Hc _ IH]; [reflexivity|].
    cbn [flat_map]. rewrite (proj1 (plain_facts Hc)), IH. reflexivity. }
  cbn [app flat_map]. rewrite N.eqb_refl, F. reflexivity.
Qed.

Lemma plain_ascii s : Forall plain s -> map Py.to_ascii s = s.
Proof.
  induction 1 as [|c s Hc _ IH]; [reflexivity|].
  cbn [map]. destruct (plain_facts Hc) as (_ & -> & _). rewrite IH. reflexivity.
Qed.

Lemma plain_underscores s : forall prev,
  N.eqb prev 95 = false -> Forall plain s -> Py.underscores_ok prev s = true.
Proof.
  induction s as [|c s IH]; intros prev Hp H; cbn [Py.underscores_ok].
  - rewrite Hp. reflexivity.
  - inversion H as [|? ? Hc Hs]. subst.
    destruct (plain_facts Hc) as (_ & _ & E & _). rewrite E, Hp. cbn [negb orb andb].
    apply IH; assumption.
Qed.

Lemma plain_filter s :
  Forall plain s -> filter (fun c => negb (c =? 95)%N) s = s.
Proof.
  induction 1 as [|c s Hc _ IH]; [reflexivity|].
  cbn [filter]. destruct (plain_facts Hc) as (_ & _ & -> & _). cbn [negb].
  rewrite IH. reflexivity.
Qed.

Lemma plain_strip s : Forall plain s -> Py.c_strip s = s.
Proof.
  intros H. apply c_strip_all. eapply Forall_impl; [|exact H].
  intros c Hc. destruct (plain_facts Hc) as (_ & _ & _ & E & _). exact E.
Qed.

Lemma plain_lower s : Forall plain s -> map Py.lower s = s.
Proof.
  induction 1 as [|c s Hc _ IH]; [reflexivity|].
  cbn [map]. destruct (plain_facts Hc) as (_ & _ & _ & _ & _ & _ & ->).
  rewrite IH. reflexivity.
Qed.

Lemma take_digits_run ds : forall rest acc n,
  ascii_digits ds ->
  match rest with c :: _ => Py.is_digit c = false | [] => True end ->
  Py.take_digits (ds ++ rest) acc n
  = (fold_left (fun a c => (10 * a + Z.of_N (c - 48))%Z) ds acc,
     (n + Z.of_nat (length ds))%Z, rest).
Proof.
  induction ds as [|c ds IH]; intros rest acc n H Hr.
  - cbn [app fold_left length]. rewrite Z.add_0_r.
    destruct rest as [|c rest]; [reflexivity|].
    cbn [Py.take_digits]. rewrite Hr. reflexivity.
  - inversion H as [|? ? Hc Hs]. subst.
    cbn [app Py.take_digits fold_left length]. rewrite Hc.
    rewrite (IH rest _ _ Hs Hr). f_equal. f_equal. lia.
Qed.

Lemma value_of_app ip fp :
  fold_left (fun a c => (10 * a + Z.of_N (c - 48))%Z) fp (value_of ip) = value_of (ip ++ fp).
Proof. unfold value_of. rewrite fold_left_app. reflexivity. Qed.

(** [float] on a decimal without sign or exponent. *)
Lemma float_of_decimal ip fp :
  ip <> [] -> ascii_digits ip -> ascii_digits fp ->
  Py.float_of_str (ip ++ Py.lit "." ++ fp)
  = Ok (Py.dec2float false (value_of (ip ++ fp)) (- Z.of_nat (length fp))).
Proof.
  intros Hne Hi Hf. change (Py.lit "." ++ fp) with (46%N :: fp).
  assert (P : Forall plain (ip ++ 46%N :: fp)).
  { apply Forall_app. split; [eapply Forall_impl; [|exact Hi]; intros c; left; assumption|].
    constructor; [right; reflexivity|].
    eapply Forall_impl; [|exact Hf]. intros c; left; assumption. }
  unfold Py.float_of_str. rewrite (plain_ascii P).
  rewrite (plain_underscores 0 eq_refl P). rewrite (plain_filter P), (plain_strip P).
  destruct ip as [|c ip]; [contradiction|].
  inversion Hi as [|? ? Hc Hi']. subst.
  destruct (@plain_facts c (or_introl Hc)) as (_ & _ & _ & _ & E45 & E43 & Lc).
  destruct (@digit_facts c Hc) as (Ei & En & _).
  cbn [app Py.split_sign]. rewrite E45, E43.
  change (c :: ip ++ 46%N :: fp) with ((c :: ip) ++ 46%N :: fp).
  rewrite (plain_lower P).
  cbn [app Py.eqb Py.lit list_ascii_of_string map].
  change (N_of_ascii "i") with 105%N. change (N_of_ascii "n") with 110%N.
  rewrite Ei, En. cbn [andb orb].
  unfold Py.decimal.
  change (c :: ip ++ 46%N :: fp) with ((c :: ip) ++ 46%N :: fp).
  rewrite (@take_digits_run (c :: ip) (46%N :: fp) 0 0 Hi eq_refl).
  rewrite <- (app_nil_r fp) at 1.
  rewrite (@take_digits_run fp [] _ 0 Hf I).
  fold (value_of (c :: ip)). rewrite value_of_app.
  replace (0 <? 0 + Z.of_nat (length (c :: ip)) + (0 + Z.of_nat (length fp)))%Z with true
    by (symmetry; apply Z.ltb_lt; cbn [length]; lia).
  cbn [Py.exponent]. reflexivity.
Qed.

(** X22.  When the text of the price element is a dollar sign followed by
    a decimal, digits before and after the point ("$299.00"), the price
    extracted is the binary64 number nearest to that decimal: the digits
    read as one integer, divided by the power of ten of the number of
    digits after the point. *)
Theorem price_of_decimal_text (product_soup e : Soup.node) (ip fp : pystr) :
  Soup.select_one (Py.lit "price") product_soup = Some e ->
  priced e ip fp ->
  price_value e
  = Ok (Py.dec2float false (value_of (ip ++ fp)) (- Z.of_nat (length fp)))
  /\ forall p, get_product product_soup = Ok (Some p) ->
                price p = Py.dec2float false (value_of (ip ++ fp)) (- Z.of_nat (length fp)).
Proof.
  intros He (Hne & Hi & Hf & Ht).
  assert (V : price_value e
              = Ok (Py.dec2float false (value_of (ip ++ fp)) (- Z.of_nat (length fp)))).
  { unfold price_value. rewrite Ht, replace_dollar.
    - apply float_of_decimal; assumption.
    - apply Forall_app. split; [eapply Forall_impl; [|exact Hi]; intros c; left; assumption|].
      constructor; [right; reflexivity|].
      eapply Forall_impl; [|exact Hf]. intros c; left; assumption. }
  split; [exact V|].
  intros p Hp. apply get_product_some, get_product_try_fields in Hp.
  rewrite He in Hp. destruct Hp as (_ & _ & P & _). congruence.
Qed.

(** X22 at [listing_asus], whose price element reads "$299.00": 29900
    hundredths, that is 299.0. *)
Lemma price_of_decimal_text_witness :
  price_value (elem "h4" ["price"; "float-end"] [] [txt "$299.00"])
  = Ok (Py.dec2float false (value_of (Py.lit "299" ++ Py.lit "00")) (- Z.of_nat 2))
  /\ forall p, get_product listing_asus = Ok (Some p) ->
                price p = Py.dec2float false (value_of (Py.lit "299" ++ Py.lit "00"))
                                       (- Z.of_nat 2).
Proof.
  apply (@price_of_decimal_text listing_asus
           (elem "h4" ["price"; "float-end"] [] [txt "$299.00"])
           (Py.lit "299") (Py.lit "00")).
  - vm_compute. reflexivity.
  - split; [discriminate|]. split; [|split].
    + repeat constructor.
    + repeat constructor.
    + vm_compute. reflexivity.
Defined.

(** C10.  For every listing with a description element from which a
    record is extracted, the description of the record is the text of the
    element with every non-breaking space turned into a space, without the
    blanks before and after it: a piece of that text between two runs of
    blanks, beginning and ending with no blank, the blanks inside it left
    as they are. *)
Theorem description_normalised (product_soup d : Soup.node) (p : Product) :
  Soup.select_one (Py.lit "description") product_soup = Some d ->
  get_product product_soup = Ok (Some p) ->
  exists l r : pystr,
    map nbsp_to_space (Soup.text d) = l ++ description p ++ r
    /\ Forall (fun c => Py.isspace c = true) l
    /\ Forall (fun c => Py.isspace c = true) r
    /\ (forall c rest, description p = c :: rest -> Py.isspace c = false)
    /\ (forall c front, description p = front ++ [c] -> Py.isspace c = false).
Proof.
  intros Hd Hp. apply get_product_some, get_product_try_fields in Hp.
  destruct Hp as (_ & D & _). rewrite Hd in D. unfold description_text in D.
  rewrite replace_nbsp in D. rewrite D.
  destruct (strip_split (map nbsp_to_space (Soup.text d))) as (l & r & E & Hl & Hr).
  exists l, r. repeat split; try assumption.
  - intros c rest. apply strip_head.
  - intros c front. apply strip_last.
Qed.

(** C10 at [listing_padded]: the description "Asus   X", with the three
    blanks between its words. *)
Lemma description_normalised_witness :
  exists l r : pystr,
    map nbsp_to_space (Soup.text padded_description)
    = l ++ description (mkProduct (Py.lit "Asus X") (Py.lit "Asus   X") 0 0 0) ++ r
    /\ Forall (fun c => Py.isspace c = true) l
    /\ Forall (fun c => Py.isspace c = true) r
    /\ (forall c rest,
          description (mkProduct (Py.lit "Asus X") (Py.lit "Asus   X") 0 0 0) = c :: rest ->
          Py.isspace c = false)
    /\ (forall c front,
          description (mkProduct (Py.lit "Asus X") (Py.lit "Asus   X") 0 0 0) = front ++ [c] ->
          Py.isspace c = false).
Proof.
  apply (@description_normalised listing_padded padded_description
           (mkProduct (Py.lit "Asus X") (Py.lit "Asus   X") 0 0 0)).
  - vm_compute. reflexivity.
  - vm_compute. reflexivity.
Defined.

(** C4.  A document with exactly two listings, the first with the title
    attribute "Asus X", the description "ok", the price text "$299.00",
    three star markers and the review text "12 reviews", the second with
    nothing but the title attribute "Dell Y", yields exactly the records
    ("Asus X", "ok", 299.0, 3, 12) and ("Dell Y", "", 0.0, 0, 0), in this
    order. *)
Theorem two_listings_scenario (soup full bare d e r : Soup.node) :
  Soup.select (Py.lit "thumbnail") soup = [full; bare] ->
  Soup.getitem (Soup.select_one (Py.lit "title") full) (Py.lit "title") = Ok (Py.lit "Asus X") ->
  Soup.select_one (Py.lit "description") full = Some d -> Soup.text d = Py.lit "ok" ->
  Soup.select_one (Py.lit "price") full = Some e -> Soup.text e = Py.lit "$299.00" ->
  length (Soup.find_all (Py.lit "span") (Py.lit "ws-icon-star") full) = 3 ->
  Soup.select_one (Py.lit "review-count") full = Some r -> Soup.text r = Py.lit "12 reviews" ->
  Soup.getitem (Soup.select_one (Py.lit "title") bare) (Py.lit "title") = Ok (Py.lit "Dell Y") ->
  Soup.select_one (Py.lit "description") bare = None ->
  Soup.select_one (Py.lit "price") bare = None ->
  Soup.find_all (Py.lit "span") (Py.lit "ws-icon-star") bare = [] ->
  Soup.select_one (Py.lit "review-count") bare = None ->
  get_page_products soup
  = Ok [Some (mkProduct (Py.lit "Asus X") (Py.lit "ok") 299.0%float 3 12);
        Some (mkProduct (Py.lit "Dell Y") (Py.lit "") 0.0%float 0 0)].
Proof.
  intros Hsel Ht Hd Hdt He Het Hs Hr Hrt Ht' Hd' He' Hs' Hr'.
  assert (F : get_product full
              = Ok (Some (mkProduct (Py.lit "Asus X") (Py.lit "ok") 299.0%float 3 12))).
  { unfold get_product, get_product_try.
    rewrite Ht, Hd, He, Hs, Hr.
    unfold description_text, price_value, review_count_value.
    rewrite Hdt, Het, Hrt. vm_compute. reflexivity. }
  assert (B : get_product bare
              = Ok (Some (mkProduct (Py.lit "Dell Y") (Py.lit "") 0.0%float 0 0))).
  { unfold get_product, get_product_try.
    rewrite Ht', Hd', He', Hs', Hr'. reflexivity. }
  unfold get_page_products. rewrite Hsel. cbn [comprehension].
  rewrite F, B. reflexivity.
Qed.

(** C4 at [document_two]. *)
Lemma two_listings_scenario_witness :
  get_page_products document_two = Ok [Some record_asus; Some record_dell].
Proof.
  apply (@two_listings_scenario document_two listing_asus listing_dell
           (elem "p" ["description"] [] [txt "ok"])
           (elem "h4" ["price"; "float-end"] [] [txt "$299.00"])
           (elem "p" ["review-count"; "float-end"] [] [txt "12 reviews"]));
    vm_compute; reflexivity.
Defined.

(* ===================================================================== *)
(** * Running the program *)
(* ===================================================================== *)

Lemma run_ret A (r : result A) w : run (Ret r) w ≈ Ret (w, r).
Proof. unfold run. rewrite interp_state_ret. reflexivity. Qed.

Lemma run_bind A B (m : exec A) (k : result A -> exec B) w :
  run (ITree.bind m k) w ≈ ITree.bind (run m w) (fun wr => run (k (snd wr)) (fst wr)).
Proof. unfold run. rewrite interp_state_bind. reflexivity. Qed.

Lemma run_trigger T B (e : scrapeE T) (k : T -> exec B) w :
  run (ITree.bind (ITree.trigger e) k) w ≈ run (k (snd (handle e w))) (fst (handle e w)).
Proof.
  unfold run. rewrite interp_state_bind, interp_state_trigger.
  unfold handler. cbn. rewrite bind_ret_l. reflexivity.
Qed.

Lemma returns_ret A (a : A) w : returns (ret a) w w (Ok a).
Proof. apply run_ret. Qed.

Lemma returns_lift A (r : result A) w : returns (lift r) w w r.
Proof. apply run_ret. Qed.

Lemma returns_call A (e : scrapeE (result A)) w :
  returns (call e) w (fst (handle e w)) (snd (handle e w)).
Proof.
  unfold returns, run, call. rewrite interp_state_trigger.
  unfold handler. cbn. destruct (handle e w). reflexivity.
Qed.

Lemma returns_perform A (e : scrapeE A) w :
  returns (perform e) w (fst (handle e w)) (Ok (snd (handle e w))).
Proof.
  unfold returns, run, perform. rewrite interp_state_bind, interp_state_trigger.
  unfold handler. cbn. rewrite bind_ret_l, interp_state_ret. reflexivity.
Qed.

Lemma returns_bind A B (m : exec A) (k : result A -> exec B) w w1 r1 w2 r2 :
  returns m w w1 r1 -> returns (k r1) w1 w2 r2 -> returns (ITree.bind m k) w w2 r2.
Proof.
  unfold returns. intros H1 H2. rewrite run_bind, H1, bind_ret_l. exact H2.
Qed.

Lemma returns_ebind A B (m : exec A) (k : A -> exec B) w w1 a w2 r :
  returns m w w1 (Ok a) -> returns (k a) w1 w2 r -> returns (ebind m k) w w2 r.
Proof. intros H1 H2. eapply returns_bind; [exact H1|exact H2]. Qed.

Lemma returns_ebind_raise A B (m : exec A) (k : A -> exec B) w w1 e :
  returns m w w1 (Raise e) -> returns (ebind m k) w w1 (Raise e).
Proof. intros H1. eapply returns_bind; [exact H1|apply run_ret]. Qed.

Lemma returns_try_ok A (body : exec A) caught handler w w1 a :
  returns body w w1 (Ok a) -> returns (try_except body caught handler) w w1 (Ok a).
Proof. intros H. eapply returns_bind; [exact H|apply run_ret]. Qed.

Lemma returns_try_caught A (body : exec A) caught handler w w1 e w2 r :
  returns body w w1 (Raise e) -> caught e = true -> returns (handler e) w1 w2 r ->
  returns (try_except body caught handler) w w2 r.
Proof. intros H C Hh. eapply returns_bind; [exact H|]. cbn. rewrite C. exact Hh. Qed.

Lemma returns_try_uncaught A (body : exec A) caught handler w w1 e :
  returns body w w1 (Raise e) -> caught e = false ->
  returns (try_except body caught handler) w w1 (Raise e).
Proof. intros H C. eapply returns_bind; [exact H|]. cbn. rewrite C. apply run_ret. Qed.

Lemma returns_while_raise A (body : exec unit) w w1 e :
  returns body w w1 (Raise e) -> returns (@while_true A body) w w1 (Raise e).
Proof.
  unfold returns, while_true, run. intros H.
  rewrite unfold_iter, interp_state_bind, interp_state_bind.
  unfold run in H. rewrite H. rewrite !bind_ret_l. cbn.
  rewrite interp_state_ret, bind_ret_l. cbn. rewrite interp_state_ret. reflexivity.
Qed.

Lemma returns_while_step A (body : exec unit) w w1 u w2 r :
  returns body w w1 (Ok u) -> returns (@while_true A body) w1 w2 r ->
  returns (@while_true A body) w w2 r.
Proof.
  unfold returns, while_true, run. intros H H2.
  rewrite unfold_iter, interp_state_bind, interp_state_bind.
  unfold run in H. rewrite H. rewrite !bind_ret_l. cbn.
  rewrite interp_state_ret, bind_ret_l. cbn. rewrite interp_state_tau, tau_eutt.
  exact H2.
Qed.

Lemma returns_call_eq A (e : scrapeE (result A)) w w' r :
  handle e w = (w', r) -> returns (call e) w w' r.
Proof. intros H. pose proof (returns_call e w) as R. rewrite H in R. exact R. Qed.

Lemma returns_perform_eq A (e : scrapeE A) w w' a :
  handle e w = (w', a) -> returns (perform e) w w' (Ok a).
Proof. intros H. pose proof (returns_perform e w) as R. rewrite H in R. exact R. Qed.

Lemma round_goes_through d w url :
  current_url w = Some url ->
  load_more (site w url) (rounds w) = mkRound (Ok tt) (Ok tt) ->
  returns (load_more_round d) w (after_cycle d w) (Ok tt).
Proof.
  intros L R. destruct w; cbn in L, R; subst. unfold load_more_round.
  eapply returns_ebind.
  { apply returns_call_eq. cbn. unfold answer_wait, here. cbn.
    rewrite R. cbn. reflexivity. }
  eapply returns_ebind.
  { apply returns_call_eq. cbn. unfold answer_click, here. cbn.
    rewrite R. cbn. reflexivity. }
  apply returns_perform_eq. reflexivity.
Qed.

Lemma round_wait_raises d w url e :
  current_url w = Some url ->
  wait_outcome (load_more (site w url) (rounds w)) = Raise e ->
  returns (load_more_round d) w (note (Waited d load_more_control) w) (Raise e).
Proof.
  intros L R. destruct w; cbn in L, R; subst. unfold load_more_round.
  eapply returns_ebind_raise.
  apply returns_call_eq. cbn. unfold answer_wait, here. cbn.
  rewrite R. reflexivity.
Qed.

Lemma round_click_raises d w url e :
  current_url w = Some url ->
  wait_outcome (load_more (site w url) (rounds w)) = Ok tt ->
  click_outcome (load_more (site w url) (rounds w)) = Raise e ->
  returns (load_more_round d) w (after_refused_click d w) (Raise e).
Proof.
  intros L R C. destruct w; cbn in L, R, C; subst. unfold load_more_round.
  eapply returns_ebind.
  { apply returns_call_eq. cbn. unfold answer_wait, here. cbn.
    rewrite R. cbn. reflexivity. }
  eapply returns_ebind_raise.
  apply returns_call_eq. cbn. unfold answer_click, here. cbn.
  rewrite C. cbn. reflexivity.
Qed.

Lemma cycles_snoc d n tr : cycles d n ++ cycle d ++ tr = cycle d ++ cycles d n ++ tr.
Proof.
  induction n as [|n IH]; [reflexivity|].
  cbn [cycles]. rewrite <- !app_assoc. rewrite <- IH. reflexivity.
Qed.

(** The loop goes through the rounds that succeed and ends at the first
    that fails, raising what that round raised. *)
Lemma loop_fails d url e n : forall w,
  current_url w = Some url ->
  (forall i, i < n -> load_more (site w url) (rounds w + i) = mkRound (Ok tt) (Ok tt)) ->
  fails (load_more (site w url) (rounds w + n)) e ->
  exists w' ending,
    returns (@while_true unit (load_more_round d)) w w' (Raise e)
    /\ (ending = [Waited d load_more_control]
        \/ ending = [Clicked d load_more_control; Waited d load_more_control])
    /\ trace w' = ending ++ cycles d n ++ trace w
    /\ loaded w' = loaded w + n
    /\ current_url w' = current_url w
    /\ site w' = site w
    /\ files w' = files w
    /\ read_only w' = read_only w
    /\ startup w' = startup w
    /\ sessions w' = sessions w.
Proof.
  induction n as [|n IH]; intros w L Hok Hstop.
  - rewrite Nat.add_0_r in Hstop. destruct Hstop as [T | [T I]].
    + exists (note (Waited d load_more_control) w), [Waited d load_more_control].
      split; [apply returns_while_raise; eapply round_wait_raises; eassumption|].
      cbn. rewrite Nat.add_0_r. auto 12.
    + exists (after_refused_click d w),
        [Clicked d load_more_control; Waited d load_more_control].
      split; [apply returns_while_raise; eapply round_click_raises; eassumption|].
      cbn. rewrite Nat.add_0_r. auto 12.
  - destruct (IH (after_cycle d w))
      as (w' & ending & R & E & T & Ld & Lc & Si & F & Ro & St & Se).
    + exact L.
    + intros i Hi. cbn. rewrite <- Nat.add_succ_r. apply Hok. lia.
    + cbn. rewrite <- Nat.add_succ_r. exact Hstop.
    + exists w', ending. split.
      { eapply returns_while_step; [|exact R].
        eapply round_goes_through; [exact L|]. rewrite <- (Nat.add_0_r (rounds w)).
        apply Hok. lia. }
      split; [exact E|]. split.
      { rewrite T. cbn [after_cycle trace cycles].
        rewrite <- !app_assoc, cycles_snoc. reflexivity. }
      split; [rewrite Ld; cbn; lia|]. auto 12.
Qed.

Lemma eval_sound A fuel : forall (m : exec A) w w' r,
  eval fuel m w = Some (w', r) -> returns m w w' r.
Proof.
  induction fuel as [|f IH]; intros m w w' r H; [discriminate|].
  unfold returns, run. rewrite unfold_interp_state.
  cbn in H. destruct (observe m) as [r0|t|T e k]; cbn.
  - injection H as <- <-. reflexivity.
  - rewrite tau_eutt. apply IH. exact H.
  - unfold handler at 1. rewrite bind_ret_l.
    destruct (handle e w) as [w1 a] eqn:E. cbn. rewrite tau_eutt.
    apply IH. exact H.
Qed.

(** C7.  On a page whose "load more" control can be clicked [n] times,
    after which waiting for it times out or the click is intercepted,
    [click_load_more] ends without raising after exactly [n] cycles of
    waiting, clicking and pausing, followed by the wait, or the wait and
    the click, that ended it; the [n] clicks have loaded more of the
    document, which is what [get_page] parses next. *)
Theorem click_load_more_terminates (d : driver) (w : world) (url : pystr) (n : nat) :
  current_url w = Some url ->
  (forall i, i < n -> load_more (site w url) (rounds w + i) = mkRound (Ok tt) (Ok tt)) ->
  stops (load_more (site w url) (rounds w + n)) ->
  exists w' ending,
    returns (click_load_more d) w w' (Ok tt)
    /\ (ending = [Waited d load_more_control]
        \/ ending = [Clicked d load_more_control; Waited d load_more_control])
    /\ trace w' = ending ++ cycles d n ++ trace w
    /\ loaded w' = loaded w + n
    /\ current_url w' = current_url w
    /\ files w' = files w.
Proof.
  intros L Hok Hstop.
  assert (exists e, fails (load_more (site w url) (rounds w + n)) e
                    /\ is_click_or_timeout e = true) as (e & Hf & C).
  { destruct Hstop as [T | I].
    - exists TimeoutException. split; [left; exact T|reflexivity].
    - exists ElementClickInterceptedException. split; [right; exact I|reflexivity]. }
  destruct (@loop_fails d url e n w L Hok Hf)
    as (w' & ending & R & E & T & Ld & Lc & _ & F & _).
  exists w', ending. split; [|tauto].
  unfold click_load_more.
  eapply returns_try_caught; [exact R|exact C|apply returns_ret].
Qed.

(** C7 on a page whose control is clickable three times: three cycles. *)
Lemma click_load_more_three_times :
  exists w' ending,
    returns (click_load_more 0) (on_page (page_of 3 document_two) HOME_URL) w' (Ok tt)
    /\ (ending = [Waited 0 load_more_control]
        \/ ending = [Clicked 0 load_more_control; Waited 0 load_more_control])
    /\ trace w' = ending ++ cycles 0 3 ++ []
    /\ loaded w' = 0 + 3
    /\ current_url w' = Some HOME_URL
    /\ files w' = [].
Proof.
  apply (@click_load_more_terminates 0 (on_page (page_of 3 document_two) HOME_URL) HOME_URL 3).
  - reflexivity.
  - intros i Hi. cbn.
    destruct i as [|[|[|i]]]; [reflexivity|reflexivity|reflexivity|lia].
  - left. reflexivity.
Defined.

(* ===================================================================== *)
(** * Runs that end, and a run that does not *)
(* ===================================================================== *)

Lemma returns_bind_inv A B (m : exec A) (k : result A -> exec B) w w2 r2 :
  returns (ITree.bind m k) w w2 r2 ->
  exists w1 r1, returns m w w1 r1 /\ returns (k r1) w1 w2 r2.
Proof.
  unfold returns. intros H. rewrite run_bind in H.
  apply eutt_inv_bind_ret in H. destruct H as ([w1 r1] & H1 & H2).
  exists w1, r1. split; [exact H1|exact H2].
Qed.

Lemma returns_ret_inv A (r r' : result A) w w' :
  returns (Ret r) w w' r' -> w' = w /\ r' = r.
Proof.
  unfold returns. intros H. rewrite run_ret in H.
  apply eutt_inv_Ret in H. injection H as <- <-. auto.
Qed.

Lemma returns_try_inv A (body : exec A) (caught : exn -> bool) (h : exn -> exec A)
    w w' r :
  returns (try_except body caught h) w w' r ->
  exists w1 r1,
    returns body w w1 r1
    /\ match r1 with
       | Ok a => w' = w1 /\ r = Ok a
       | Raise e => if caught e then returns (h e) w1 w' r
                    else w' = w1 /\ r = Raise e
       end.
Proof.
  intros H. apply returns_bind_inv in H. destruct H as (w1 & r1 & H1 & H2).
  exists w1, r1. split; [exact H1|].
  destruct r1 as [a|e].
  - apply returns_ret_inv in H2. exact H2.
  - destruct (caught e); [exact H2|]. apply returns_ret_inv in H2. exact H2.
Qed.

Lemma returns_leaf A (m : exec A) w w' r :
  returns m w w' r -> Leaf (w', r) (run m w).
Proof. unfold returns. intros H. rewrite H. apply Leaf_Ret. Qed.

Lemma leaf_unique A (m : exec A) w w' r x :
  returns m w w' r -> Leaf x (run m w) -> x = (w', r).
Proof.
  unfold returns. intros H L. rewrite H in L. apply Leaf_Ret_inv in L. exact L.
Qed.

Lemma loop_has_no_leaf d url w0 : forall w,
  current_url w = Some url -> site w = site w0 ->
  always_clickable (site w0 url) (rounds w) ->
  forall x, ~ Leaf x (run (@while_true unit (load_more_round d)) w).
Proof.
  intros w L S C x Hx.
  pose (RS := fun s : world => current_url s = Some url /\ site s = site w0
                               /\ always_clickable (site w0 url) (rounds s)).
  assert (P : prod_pred RS (fun _ : result unit => False) x).
  { revert Hx. unfold run, while_true.
    apply (@Leaf_interp_state_iter_inv _ _ _ _ _ handler _ RS (fun _ => True)
             (fun _ => False) w tt); [|unfold RS; auto|exact I].
    intros s [] (Ls & Ss & Cs) _ sx' Hl.
    assert (R : returns (load_more_round d) s (after_cycle d s) (Ok tt)).
    { eapply round_goes_through; [exact Ls|]. rewrite Ss. apply Cs. lia. }
    unfold returns, run in R.
    rewrite interp_state_bind, R, bind_ret_l in Hl. cbn in Hl.
    rewrite interp_state_ret in Hl. apply Leaf_Ret_inv in Hl. subst sx'.
    split; [|cbn; exact I]. cbn. unfold RS. cbn.
    split; [exact Ls|]. split; [exact Ss|].
    intros i Hi. apply Cs. lia. }
  destruct x as [w' r]. cbn in P. destruct P as [_ F]. exact F.
Qed.

Lemma never_returns_infinite A (m : exec A) w :
  (forall w' r, ~ returns m w w' r) -> all_infinite (run m w).
Proof.
  intros H. apply not_converge_to_all_infinite. intros [w' r] C.
  inversion C as [t E|t B e k b E _]; subst.
  - exact (H w' r E).
  - destruct e.
Qed.

(** X6.  On a page whose "load more" control goes on being clickable,
    round after round, [click_load_more] never returns: the loop has no
    bound of its own, and its run is infinite. *)
Theorem click_load_more_never_returns (d : driver) (w : world) (url : pystr) :
  current_url w = Some url ->
  always_clickable (site w url) (rounds w) ->
  all_infinite (run (click_load_more d) w)
  /\ forall w' r, ~ returns (click_load_more d) w w' r.
Proof.
  intros L C.
  assert (N : forall w' r, ~ returns (click_load_more d) w w' r).
  { intros w' r R. unfold click_load_more in R.
    apply returns_try_inv in R. destruct R as (w1 & r1 & R & _).
    apply returns_leaf in R. revert R.
    apply (@loop_has_no_leaf d url w w L eq_refl C). }
  split; [apply never_returns_infinite; exact N|exact N].
Qed.

(** X6 on a page whose control is always clickable. *)
Lemma click_load_more_never_returns_witness :
  all_infinite (run (click_load_more 0)
                    (mkWorld (fun _ => page_endless (Soup.Tag (Py.lit "[document]") [] [] []))
                             (Ok tt) (Some HOME_URL) 0 0 (fun _ => false) [] 1 [])).
Proof.
  refine (proj1 (@click_load_more_never_returns 0 _ HOME_URL _ _)).
  - reflexivity.
  - intros i _. reflexivity.
Defined.

(** X7.  Whatever the browser does, a run of [get_page] that ends returns
    a list or raises something that is no [Exception] (a
    [KeyboardInterrupt], say): it lets no [Exception] through. *)
Theorem get_page_lets_no_exception_through (d : driver) (page_url : pystr)
    (w w' : world) (r : result (list (option Product))) :
  returns (get_page d page_url) w w' r ->
  match r with
  | Ok _ => True
  | Raise e => is_Exception e = false
  end.
Proof.
  intros R. unfold get_page in R. apply returns_try_inv in R.
  destruct R as (w1 & [l|e] & _ & H).
  - destruct H as [_ ->]. exact I.
  - destruct (is_Exception e) eqn:E.
    + apply returns_ret_inv in H. destruct H as [_ ->]. exact I.
    + destruct H as [_ ->]. exact E.
Qed.

(** X7 on a page whose navigation is interrupted from the keyboard: the
    interrupt goes through. *)
Lemma get_page_lets_no_exception_through_witness :
  exists w',
    returns (get_page 0 HOME_URL)
            (mkWorld (fun _ => page_unreachable KeyboardInterrupt) (Ok tt) None 0 0
                     (fun _ => false) [] 1 [])
            w' (Raise KeyboardInterrupt)
    /\ is_Exception KeyboardInterrupt = false.
Proof.
  assert (exists w',
             returns (get_page 0 HOME_URL)
                     (mkWorld (fun _ => page_unreachable KeyboardInterrupt) (Ok tt) None 0 0
                              (fun _ => false) [] 1 [])
                     w' (Raise KeyboardInterrupt)) as (w' & R).
  { eexists. apply (@eval_sound _ 20). vm_compute. reflexivity. }
  exists w'. split; [exact R|].
  exact (@get_page_lets_no_exception_through 0 HOME_URL _ w' (Raise KeyboardInterrupt) R).
Defined.

(* ===================================================================== *)
(** * The reader reads what the writer wrote *)
(* ===================================================================== *)

Section ReadingBackFacts.
Import Csv.


















End ReadingBackFacts.

Lemma py_eqb_refl s : Py.eqb s s = true.
Proof. induction s as [|c s IH]; [reflexivity|]. cbn. now rewrite N.eqb_refl. Qed.

Lemma py_eqb_eq s t : Py.eqb s t = true -> s = t.
Proof.
  revert t. induction s as [|c s IH]; intros [|d t]; cbn; try discriminate; [reflexivity|].
  intros H. apply andb_true_iff in H. destruct H as [H1 H2].
  apply N.eqb_eq in H1. f_equal; [exact H1|apply IH; exact H2].
Qed.

Lemma append_top path text old rest :
  append_to path text ((path, old) :: rest) = (path, old ++ text) :: rest.
Proof. cbn. rewrite py_eqb_refl. reflexivity. Qed.

(** Writing the rows of [ps], one [writerow] each. *)
Lemma rows_written path ps : forall w old rest,
  files w = (path, old) :: rest ->
  exists w',
    returns (for_each (map Some ps)
               (fun product =>
                  row <~ lift (formatted_product product) ;;
                  call (WriteText path (Csv.writerow row)))) w w' (Ok tt)
    /\ files w' = (path, old ++ concat (map (fun p => Csv.format_row (product_row p)) ps))
                    :: rest
    /\ forall d, quiet d w w'.
Proof.
  induction ps as [|p ps IH]; intros w old rest F.
  - exists w. split; [apply returns_ret|]. cbn. rewrite app_nil_r.
    split; [exact F|]. intros d. unfold quiet. auto.
  - destruct (IH (wrote path (Csv.format_row (product_row p)) w)
                 (old ++ Csv.format_row (product_row p)) rest) as (w' & R & F' & Q).
    { cbn. rewrite F. apply append_top. }
    exists w'. split; [|split].
    + cbn [map for_each]. eapply returns_ebind; [|exact R].
      eapply returns_ebind; [apply returns_lift|].
      apply returns_call_eq. reflexivity.
    + rewrite F'. cbn [map concat]. rewrite <- app_assoc. reflexivity.
    + intros d. destruct (Q d) as (Q1 & Q2 & Q3 & Q4 & Q5).
      unfold quiet. cbn in Q1, Q2, Q3, Q4, Q5. auto.
Qed.

(** The file [write_products_to_csv] leaves when every entry is a product
    and the path can be written. *)
Lemma products_written path ps w :
  read_only w path = false ->
  exists w',
    returns (write_products_to_csv path (map Some ps)) w w' (Ok tt)
    /\ file_content path (files w')
       = Some (concat (map Csv.format_row (PRODUCT_FIELDS :: map product_row ps)))
    /\ forall d, quiet d w w'.
Proof.
  intros W.
  pose (w1 := mkWorld (site w) (startup w) (current_url w) (rounds w) (loaded w)
                (read_only w) ((path, []) :: files w) (sessions w)
                (Opened path :: trace w)).
  pose (w2 := wrote path (Csv.format_row PRODUCT_FIELDS) w1).
  destruct (@rows_written path ps w2 (Csv.format_row PRODUCT_FIELDS) (files w))
    as (w3 & R & F & Q).
  { unfold w2, wrote. cbn [files]. unfold w1. cbn [files]. apply append_top. }
  exists (note (Released path) w3). split; [|split].
  - unfold write_products_to_csv. apply returns_try_ok. unfold with_open.
    eapply (@returns_ebind _ _ _ _ w w1 tt).
    { apply returns_call_eq. cbn. rewrite W. reflexivity. }
    eapply (@returns_bind _ _ _ _ w1 w3 (Ok tt)).
    + eapply (@returns_ebind _ _ _ _ w1 w2 tt); [|exact R].
      apply returns_call_eq. reflexivity.
    + unfold returns. rewrite run_trigger. apply run_ret.
  - cbn [note files]. rewrite F. cbn [file_content]. rewrite py_eqb_refl.
    cbn [map concat]. rewrite map_map. reflexivity.
  - intros d. destruct (Q d) as (Q1 & Q2 & Q3 & Q4 & Q5).
    unfold quiet. cbn in Q1, Q2, Q3, Q4, Q5 |- *. auto.
Qed.






(* ===================================================================== *)
(** * A listing whose extraction fails *)
(* ===================================================================== *)

(** C1 (the code departs from it).  A listing whose extraction fails yields
    [None], and [get_page] keeps that [None] in the list of the page, at
    the place of the listing: for a document with a listing without title
    attribute followed by a well-formed one the list is
    [[None; Some record_dell]], not [[Some record_dell]].  The record of
    the other listing is as it would be alone, and the page is not
    aborted. *)
Example malformed_listing_stays_in_list :
  get_product listing_untitled = Ok None
  /\ get_page_products document_mixed = Ok [None; Some record_dell]
  /\ exists w', returns (get_page 0 HOME_URL) (site_showing document_mixed) w'
                  (Ok [None; Some record_dell]).
Proof.
  split; [vm_compute; reflexivity|]. split; [vm_compute; reflexivity|].
  eexists. apply (@eval_sound _ 100). vm_compute. reflexivity.
Qed.

(** C2 (the code departs from it).  On a page whose only listing fails
    extraction no record is extracted, yet the list [[None]] is not empty:
    the writer is invoked, [home.csv] is created and holds the header row,
    and the run ends with [AttributeError]. *)
Example page_without_records_gets_a_file :
  get_page_products document_untitled = Ok [None]
  /\ exists w', returns get_all_products (site_showing document_untitled) w'
                  (Raise AttributeError)
       /\ writer_invoked home_csv (trace w') = true
       /\ file_content home_csv (files w') = Some (Csv.format_row PRODUCT_FIELDS).
Proof.
  split; [vm_compute; reflexivity|].
  eexists. split; [apply (@eval_sound _ 200); vm_compute; reflexivity|].
  split; vm_compute; reflexivity.
Qed.

(** C3 (the code departs from it).  The [None] that a failed extraction
    leaves in the list makes [write_products_to_csv] raise
    [AttributeError], which nothing catches: [get_all_products] ends before
    [close_driver], and the session it started is never closed. *)
Example session_left_open :
  exists w', returns get_all_products (site_showing document_mixed) w'
               (Raise AttributeError)
    /\ times_closed 0 (trace w') = 0
    /\ sessions w' = 1.
Proof.
  eexists. split; [apply (@eval_sound _ 200); vm_compute; reflexivity|].
  split; vm_compute; reflexivity.
Qed.

(* ===================================================================== *)
(** * Sites whose listings are all extracted *)
(* ===================================================================== *)

Lemma outcome_conseq A (m : exec A) w (P Q : world -> result A -> Prop) :
  outcome m w P -> (forall w' r, P w' r -> Q w' r) -> outcome m w Q.
Proof. intros (w' & r & R & H) I. exists w', r. auto. Qed.

Lemma outcome_ret A (a : A) w (P : world -> result A -> Prop) :
  P w (Ok a) -> outcome (ret a) w P.
Proof. intros H. exists w, (Ok a). split; [apply returns_ret|exact H]. Qed.

Lemma outcome_lift A (r : result A) w (P : world -> result A -> Prop) :
  P w r -> outcome (lift r) w P.
Proof. intros H. exists w, r. split; [apply returns_lift|exact H]. Qed.

Lemma outcome_call A (e : scrapeE (result A)) w (P : world -> result A -> Prop) :
  P (fst (handle e w)) (snd (handle e w)) -> outcome (call e) w P.
Proof. intros H. eexists _, _. split; [apply returns_call|exact H]. Qed.

Lemma outcome_perform A (e : scrapeE A) w (P : world -> result A -> Prop) :
  P (fst (handle e w)) (Ok (snd (handle e w))) -> outcome (perform e) w P.
Proof. intros H. eexists _, _. split; [apply returns_perform|exact H]. Qed.

Lemma outcome_ebind A B (m : exec A) (k : A -> exec B) w (P : world -> result B -> Prop) :
  outcome m w (fun w1 r1 => match r1 with
                            | Ok a => outcome (k a) w1 P
                            | Raise e => P w1 (Raise e)
                            end) ->
  outcome (ebind m k) w P.
Proof.
  intros (w1 & [a|e] & R & H).
  - destruct H as (w2 & r & R2 & H). exists w2, r. split; [|exact H].
    eapply returns_ebind; eassumption.
  - exists w1, (Raise e). split; [|exact H]. apply returns_ebind_raise. exact R.
Qed.

Lemma outcome_try A (body : exec A) (caught : exn -> bool) (h : exn -> exec A) w
    (P : world -> result A -> Prop) :
  outcome body w (fun w1 r1 => match r1 with
                               | Ok a => P w1 (Ok a)
                               | Raise e => if caught e then outcome (h e) w1 P
                                            else P w1 (Raise e)
                               end) ->
  outcome (try_except body caught h) w P.
Proof.
  intros (w1 & [a|e] & R & H).
  - exists w1, (Ok a). split; [|exact H]. apply returns_try_ok. exact R.
  - destruct (caught e) eqn:C.
    + destruct H as (w2 & r & R2 & H). exists w2, r. split; [|exact H].
      eapply returns_try_caught; eassumption.
    + exists w1, (Raise e). split; [|exact H]. apply returns_try_uncaught; assumption.
Qed.

Lemma quiet_refl d w : quiet d w w.
Proof. unfold quiet. auto. Qed.

Lemma quiet_trans d w1 w2 w3 : quiet d w1 w2 -> quiet d w2 w3 -> quiet d w1 w3.
Proof. unfold quiet. intuition congruence. Qed.

Lemma still_refl d w : still d w w.
Proof. unfold still. auto using quiet_refl. Qed.

Lemma still_trans d w1 w2 w3 : still d w1 w2 -> still d w2 w3 -> still d w1 w3.
Proof.
  unfold still. intros (Q1 & H1) (Q2 & H2).
  split; [eapply quiet_trans; eassumption|intuition congruence].
Qed.

Lemma click_or_timeout_is_Exception e : is_click_or_timeout e = true -> is_Exception e = true.
Proof. destruct e; cbn; congruence. Qed.

(** [accept_cookies] changes nothing that matters later, and raises nothing
    but [Exception]s. *)
Lemma accept_cookies_outcome d w url :
  current_url w = Some url ->
  raises_exceptions (site w url) ->
  outcome (accept_cookies d) w
    (fun w' r => still d w w'
                 /\ (r = Ok tt \/ exists e, r = Raise e /\ is_Exception e = true)).
Proof.
  intros L (_ & Hw & Hc & _).
  destruct w as [si st cu ro lo rd fi se tr]. cbn in L, Hw, Hc. subst cu.
  unfold accept_cookies. apply outcome_try. apply outcome_ebind. apply outcome_call.
  cbn. unfold answer_wait, here. cbn.
  destruct (wait_outcome (consent (si url))) as [[]|e] eqn:W; cbn.
  - apply outcome_call. cbn. unfold answer_click, here. cbn.
    destruct (click_outcome (consent (si url))) as [[]|e] eqn:C; cbn.
    + split; [unfold still, quiet; cbn; auto 10|auto].
    + destruct (is_click_or_timeout e).
      * apply outcome_ret. split; [unfold still, quiet; cbn; auto 10|auto].
      * split; [unfold still, quiet; cbn; auto 10|eauto].
  - destruct (is_click_or_timeout e).
    + apply outcome_ret. split; [unfold still, quiet; cbn; auto 10|auto].
    + split; [unfold still, quiet; cbn; auto 10|eauto].
Qed.

Lemma times_closed_app d tr1 tr2 :
  times_closed d (tr1 ++ tr2) = times_closed d tr1 + times_closed d tr2.
Proof. unfold times_closed. rewrite filter_app, length_app. reflexivity. Qed.

Lemma times_closed_cycles d d' n : times_closed d (cycles d' n) = 0.
Proof.
  induction n as [|n IH]; [reflexivity|].
  cbn [cycles]. rewrite times_closed_app, IH. reflexivity.
Qed.

Lemma fails_raises_exception pg k e :
  raises_exceptions pg -> fails (load_more pg k) e -> is_Exception e = true.
Proof.
  intros (_ & _ & _ & Hw & Hc & _) [F | [_ F]]; [eapply Hw|eapply Hc]; exact F.
Qed.

(** On a page whose loop is finite [click_load_more] ends; it leaves the
    page loaded further and raises nothing but [Exception]s. *)
Lemma click_load_more_outcome d w url :
  current_url w = Some url -> rounds w = 0 ->
  raises_exceptions (site w url) -> loop_finite (site w url) ->
  outcome (click_load_more d) w
    (fun w' r => quiet d w w' /\ files w' = files w /\ current_url w' = current_url w
                 /\ (r = Ok tt \/ exists e, r = Raise e /\ is_Exception e = true)).
Proof.
  intros L R0 Hex (n & e & Hok & Hf).
  destruct (@loop_fails d url e n w L) as (w' & ending & R & E & T & _ & Lc & Si & F & Ro & St & Se).
  { intros i Hi. rewrite R0. apply Hok. exact Hi. }
  { rewrite R0. exact Hf. }
  assert (Q : quiet d w w').
  { unfold quiet. repeat (split; [assumption|]).
    rewrite T, !times_closed_app, times_closed_cycles.
    destruct E as [-> | ->]; reflexivity. }
  unfold click_load_more. apply outcome_try. exists w', (Raise e). split; [exact R|].
  destruct (is_click_or_timeout e) eqn:C.
  - apply outcome_ret. auto.
  - repeat (split; [assumption|]). right. exists e. split; [reflexivity|].
    eapply fails_raises_exception; eassumption.
Qed.

(** [get_page_products] raises nothing, and its list has an entry for each
    listing of the document, [None] where extraction failed. *)
Lemma get_page_products_total soup :
  exists l, get_page_products soup = Ok l
            /\ Forall2 (fun n o => get_product n = Ok o)
                       (Soup.select (Py.lit "thumbnail") soup) l.
Proof.
  unfold get_page_products.
  induction (Soup.select (Py.lit "thumbnail") soup) as [|n ns (l & E & F)].
  - exists []. split; [reflexivity|constructor].
  - cbn [comprehension].
    destruct (get_product_total n) as [G | (p & G)].
    + exists (None :: l). rewrite G, E. split; [reflexivity|now constructor].
    + exists (Some p :: l). rewrite G, E. split; [reflexivity|now constructor].
Qed.

(** On a page whose environment raises only [Exception]s and whose loop is
    finite, [get_page] returns a list: the empty one, or what extraction
    makes of a document of the page.  The session stays open and no file
    is touched. *)
Lemma get_page_outcome d url w :
  raises_exceptions (site w url) -> loop_finite (site w url) ->
  outcome (get_page d url) w
    (fun w' r => quiet d w w' /\ files w' = files w
                 /\ exists l, r = Ok l
                      /\ (l = [] \/ exists k soup, document (site w url) k = Ok soup
                                                   /\ get_page_products soup = Ok l)).
Proof.
  intros Hex Hfin. pose proof Hex as (Hn & _ & _ & _ & _ & Hd).
  unfold get_page. apply outcome_try. apply outcome_ebind. apply outcome_call.
  cbn [handle fst snd].
  destruct (navigation (site w url)) as [[]|e] eqn:N; cbn [fst snd].
  2:{ rewrite (Hn e eq_refl). apply outcome_ret.
      split; [unfold quiet; cbn; auto|]. split; [reflexivity|eauto]. }
  set (w1 := mkWorld _ _ _ _ _ _ _ _ _).
  assert (Q1 : quiet d w w1) by (unfold quiet; cbn; auto).
  assert (S1 : site w1 = site w) by reflexivity.
  apply outcome_ebind.
  eapply outcome_conseq; [apply (@accept_cookies_outcome d w1 url eq_refl); exact Hex|].
  intros w2 r2 ((Q2 & F2 & L2 & R2 & _) & H2).
  assert (S2 : site w2 = site w) by (destruct Q2 as (S & _); rewrite S; exact S1).
  assert (Q12 : quiet d w w2) by exact (quiet_trans Q1 Q2).
  destruct H2 as [-> | (e & -> & He)].
  2:{ rewrite He. apply outcome_ret. split; [exact Q12|]. split; [exact F2|eauto]. }
  apply outcome_ebind.
  eapply outcome_conseq.
  { apply (@click_load_more_outcome d w2 url); [exact L2|exact R2|rewrite S2; exact Hex|
                                                 rewrite S2; exact Hfin]. }
  intros w3 r3 (Q3 & F3 & L3 & H3).
  assert (S3 : site w3 = site w) by (destruct Q3 as (S & _); rewrite S; exact S2).
  assert (Q13 : quiet d w w3) by exact (quiet_trans Q12 Q3).
  assert (F13 : files w3 = files w) by (rewrite F3; exact F2).
  destruct H3 as [-> | (e & -> & He)].
  2:{ rewrite He. apply outcome_ret. split; [exact Q13|]. split; [exact F13|eauto]. }
  apply outcome_ebind. apply outcome_call. cbn [handle fst snd].
  unfold here. cbn [note current_url site loaded]. rewrite L3, L2. cbn [option_map w1 current_url].
  rewrite S3.
  assert (Q4 : quiet d w (note (Rendered d) w3)).
  { destruct Q13 as (A & B & C & D & E). unfold quiet. cbn. auto. }
  destruct (document (site w url) (loaded w3)) as [soup|e] eqn:Doc.
  - destruct (get_page_products_total soup) as (l & El & _).
    apply outcome_lift. rewrite El. split; [exact Q4|]. split; [exact F13|].
    exists l. split; [reflexivity|]. right. eauto.
  - rewrite (Hd _ e Doc). apply outcome_ret. split; [exact Q4|]. split; [exact F13|eauto].
Qed.

Lemma all_products l :
  Forall (fun o : option Product => o <> None) l -> exists ps, l = map Some ps.
Proof.
  induction 1 as [|o l Ho _ (ps & ->)]; [exists []; reflexivity|].
  destruct o as [p|]; [|congruence]. exists (p :: ps). reflexivity.
Qed.

(** Given products only, [write_products_to_csv] raises nothing: it writes
    the file, or fails to open it and gives up. *)
Lemma write_products_outcome d path ps w :
  outcome (write_products_to_csv path (map Some ps)) w
    (fun w' r => r = Ok tt /\ quiet d w w'
                 /\ (read_only w path = false ->
                     file_content path (files w')
                     = Some (concat (map Csv.format_row
                                       (PRODUCT_FIELDS :: map product_row ps))))).
Proof.
  destruct (read_only w path) eqn:W.
  - unfold write_products_to_csv. apply outcome_try. unfold with_open.
    apply outcome_ebind. apply outcome_call. cbn [handle fst snd]. rewrite W.
    cbn [fst snd is_IOError]. apply outcome_ret.
    split; [reflexivity|]. split; [unfold quiet; cbn; auto|discriminate].
  - destruct (@products_written path ps w W) as (w' & R & F & Q).
    exists w', (Ok tt). auto.
Qed.

(** The guard [if products:] keeps the writer from a page whose list is
    empty. *)
Lemma empty_page_skipped d name url w w1 :
  returns (get_page d url) w w1 (Ok []) ->
  returns (page_step d (name, url)) w w1 (Ok tt).
Proof.
  intros R. unfold page_step. eapply returns_ebind; [exact R|]. apply returns_ret.
Qed.

(** A page whose list holds products only, and at least one, gets its
    file. *)
Lemma page_with_products_written d name url w w1 p ps :
  returns (get_page d url) w w1 (Ok (map Some (p :: ps))) ->
  read_only w1 (name ++ Py.lit ".csv") = false ->
  exists w2,
    returns (page_step d (name, url)) w w2 (Ok tt)
    /\ file_content (name ++ Py.lit ".csv") (files w2)
       = Some (concat (map Csv.format_row (PRODUCT_FIELDS :: map product_row (p :: ps)))).
Proof.
  intros R W.
  destruct (@products_written (name ++ Py.lit ".csv") (p :: ps) w1 W) as (w2 & R2 & F & _).
  exists w2. split; [|exact F].
  unfold page_step. eapply returns_ebind; [exact R|]. exact R2.
Qed.

Lemma page_step_outcome d name url w :
  well_behaved (site w url) ->
  outcome (page_step d (name, url)) w (fun w' r => r = Ok tt /\ quiet d w w').
Proof.
  intros (Hex & Hfin & Hall). unfold page_step. apply outcome_ebind.
  eapply outcome_conseq; [apply get_page_outcome; assumption|].
  intros w1 r1 (Q1 & _ & l & -> & Hl).
  destruct Hl as [-> | (k & soup & Doc & E)].
  - apply outcome_ret. auto.
  - assert (Forall (fun o : option Product => o <> None) l) as Hsome.
    { destruct (get_page_products_total soup) as (l' & E' & F2).
      rewrite E in E'. injection E' as <-.
      specialize (Hall k soup Doc). revert Hall. clear -F2.
      induction F2 as [|n o ns l G _ IH]; intros Hall; [constructor|].
      inversion Hall as [|? ? Hn Hns]. subst.
      constructor; [congruence|apply IH; exact Hns]. }
    destruct (all_products Hsome) as (ps & ->).
    destruct (truthy (map Some ps)); [|apply outcome_ret; auto].
    eapply outcome_conseq; [apply (@write_products_outcome d)|].
    intros w2 r2 (-> & Q2 & _). split; [reflexivity|exact (quiet_trans Q1 Q2)].
Qed.

(** A loop whose body keeps an invariant and raises nothing. *)
Lemma for_each_outcome A (body : A -> exec unit) (I : world -> Prop) l :
  (forall x w, In x l -> I w -> outcome (body x) w (fun w' r => r = Ok tt /\ I w')) ->
  forall w, I w -> outcome (for_each l body) w (fun w' r => r = Ok tt /\ I w').
Proof.
  induction l as [|x l IH]; intros Hbody w Hw.
  - apply outcome_ret. auto.
  - cbn [for_each]. apply outcome_ebind.
    eapply outcome_conseq; [apply (Hbody x w); [left; reflexivity|exact Hw]|].
    intros w1 r1 (-> & I1).
    apply IH; [|exact I1]. intros y w2 Hy. apply Hbody. right. exact Hy.
Qed.

(** X1.  When a browser can be started and every configured page is well
    behaved (its environment raises only [Exception]s, its "load more" loop
    is finite and each of its listings yields a product), the run ends
    without raising and closes the session exactly once, as its last
    action. *)
Theorem session_closed_once (w : world) :
  startup w = Ok tt ->
  (forall name url, In (name, url) PAGES -> well_behaved (site w url)) ->
  outcome get_all_products w
    (fun w' r =>
       r = Ok tt
       /\ exists tr, trace w' = Closed (sessions w) :: tr
                     /\ times_closed (sessions w) tr = times_closed (sessions w) (trace w)).
Proof.
  intros St Hpages. unfold get_all_products, init_driver.
  apply outcome_ebind. apply outcome_call. cbn [handle]. rewrite St. cbn [fst snd].
  set (d := sessions w). set (w0 := note (Started d) _).
  apply outcome_ebind.
  eapply outcome_conseq.
  - apply (@for_each_outcome _ (page_step d) (quiet d w0) PAGES).
    + intros [name url] w1 Hin Q. 
      eapply outcome_conseq.
      * apply page_step_outcome. destruct Q as (S1 & _). rewrite S1.
        apply (Hpages name url Hin).
      * intros w2 r2 (-> & Q2). split; [reflexivity|exact (quiet_trans Q Q2)].
    + apply quiet_refl.
  - intros w1 r1 (-> & Q). unfold close_driver. apply outcome_call.
    cbn [handle fst snd]. split; [reflexivity|].
    exists (trace w1). split; [reflexivity|].
    destruct Q as (_ & _ & _ & _ & T). rewrite T. reflexivity.
Qed.

Lemma page_of_well_behaved doc :
  Forall (fun n => get_product n <> Ok None) (Soup.select (Py.lit "thumbnail") doc) ->
  well_behaved (page_of 0 doc).
Proof.
  intros H. split; [|split].
  - unfold raises_exceptions, page_of, clickable_times, without_banner. cbn.
    repeat split; intros; try discriminate;
      match goal with E : Raise _ = Raise _ |- _ => injection E as <- end; reflexivity.
  - exists 0, TimeoutException. split; [intros i Hi; lia|]. left. reflexivity.
  - intros k soup E. cbn in E. injection E as <-. exact H.
Qed.

(** X1 on a site all of whose pages show [document_two]. *)
Lemma session_closed_once_witness :
  outcome get_all_products (site_showing document_two)
    (fun w' r =>
       r = Ok tt
       /\ exists tr, trace w' = Closed (sessions (site_showing document_two)) :: tr
                     /\ times_closed (sessions (site_showing document_two)) tr
                        = times_closed (sessions (site_showing document_two))
                                       (trace (site_showing document_two))).
Proof.
  apply (@session_closed_once (site_showing document_two)).
  - reflexivity.
  - intros name url _. apply page_of_well_behaved.
    repeat constructor; vm_compute; discriminate.
Defined.

(** X2.  [get_page] makes one entry per listing, in the order of the
    document: what [get_product] returns for it, [None] included. *)
Theorem every_listing_has_its_entry (soup : Soup.node) :
  exists l, get_page_products soup = Ok l
            /\ Forall2 (fun n o => get_product n = Ok o)
                       (Soup.select (Py.lit "thumbnail") soup) l.
Proof.
  destruct (get_page_products_total soup) as (l & E & F).
  exists l. split; [exact E|exact F].
Qed.

(** X3.  When [get_page] returns the empty list, the pass of the loop for
    the page ends in the world [get_page] left: the writer was not
    invoked and no file was created. *)
Theorem empty_list_not_written (d : driver) (name url : pystr) (w w1 : world) :
  returns (get_page d url) w w1 (Ok []) ->
  exists w2, returns (page_step d (name, url)) w w2 (Ok tt)
             /\ files w2 = files w1 /\ trace w2 = trace w1.
Proof.
  intros R. exists w1. split; [|split; reflexivity].
  apply empty_page_skipped. exact R.
Qed.

(** X3 on a site whose pages show no listing. *)
Lemma empty_list_not_written_witness :
  exists w1 w2,
    returns (get_page 0 HOME_URL) (site_showing document_empty) w1 (Ok [])
    /\ returns (page_step 0 (Py.lit "home", HOME_URL)) (site_showing document_empty) w2 (Ok tt)
    /\ files w2 = files w1 /\ trace w2 = trace w1.
Proof.
  assert (exists w1, returns (get_page 0 HOME_URL) (site_showing document_empty) w1 (Ok []))
    as (w1 & R).
  { eexists. apply (@eval_sound _ 100). vm_compute. reflexivity. }
  destruct (@empty_list_not_written 0 (Py.lit "home") HOME_URL _ _ R) as (w2 & H).
  exists w1, w2. split; [exact R|exact H].
Defined.

(** X4.  When [get_page] returns products only, and at least one, and
    [<name>.csv] can be written, the pass of the loop for the page leaves
    that file with the header row and one row per product, in order. *)
Theorem products_of_page_written (d : driver) (name url : pystr) (w w1 : world)
    (p : Product) (ps : list Product) :
  returns (get_page d url) w w1 (Ok (map Some (p :: ps))) ->
  read_only w1 (name ++ Py.lit ".csv") = false ->
  exists w2,
    returns (page_step d (name, url)) w w2 (Ok tt)
    /\ file_content (name ++ Py.lit ".csv") (files w2)
       = Some (concat (map Csv.format_row (PRODUCT_FIELDS :: map product_row (p :: ps)))).
Proof. intros R W. exact (@page_with_products_written d name url w w1 p ps R W). Qed.

(** X4 on a site whose pages show [document_two]. *)
Lemma products_of_page_written_witness :
  exists w1 w2,
    returns (get_page 0 HOME_URL) (site_showing document_two) w1
            (Ok (map Some [record_asus; record_dell]))
    /\ returns (page_step 0 (Py.lit "home", HOME_URL)) (site_showing document_two) w2 (Ok tt)
    /\ file_content (Py.lit "home" ++ Py.lit ".csv") (files w2)
       = Some (concat (map Csv.format_row
                         (PRODUCT_FIELDS :: map product_row [record_asus; record_dell]))).
Proof.
  assert (exists w1, returns (get_page 0 HOME_URL) (site_showing document_two) w1
                             (Ok (map Some [record_asus; record_dell]))
                     /\ read_only w1 (Py.lit "home" ++ Py.lit ".csv") = false)
    as (w1 & R & W).
  { eexists. split; [apply (@eval_sound _ 100); vm_compute; reflexivity|reflexivity]. }
  destruct (@products_of_page_written 0 (Py.lit "home") HOME_URL _ _ _ _ R W) as (w2 & H).
  exists w1, w2. split; [exact R|exact H].
Defined.

(* ===================================================================== *)
(** * The functions one by one, and the whole run *)
(* ===================================================================== *)

Lemma visited_app tr1 tr2 : visited (tr1 ++ tr2) = visited tr1 ++ visited tr2.
Proof.
  induction tr1 as [|a tr1 IH]; [reflexivity|].
  destruct a; cbn; rewrite IH; reflexivity.
Qed.

Lemma visited_cycles d n : visited (cycles d n) = [].
Proof.
  induction n as [|n IH]; [reflexivity|].
  cbn [cycles]. rewrite visited_app, IH. reflexivity.
Qed.

(** X10.  [accept_cookies] on the page the session shows: when the consent
    control is there and the click goes through, it returns; when the wait
    or the click raises a timeout or an intercepted click, it returns all
    the same; anything else they raise goes to the caller.  A wait that
    fails is followed by no click, and in no case does the page, a file or
    the count of rounds at the "load more" control change. *)
Theorem accept_cookies_outcomes (d : driver) (w : world) (url : pystr) :
  current_url w = Some url ->
  (consent (site w url) = mkRound (Ok tt) (Ok tt) ->
   exists w', returns (accept_cookies d) w w' (Ok tt)
              /\ trace w' = Clicked d consent_control :: Waited d consent_control :: trace w
              /\ still d w w')
  /\ (forall e, wait_outcome (consent (site w url)) = Raise e ->
      exists w', returns (accept_cookies d) w w' (swallowed e)
                 /\ trace w' = Waited d consent_control :: trace w
                 /\ still d w w')
  /\ (forall e, wait_outcome (consent (site w url)) = Ok tt ->
      click_outcome (consent (site w url)) = Raise e ->
      exists w', returns (accept_cookies d) w w' (swallowed e)
                 /\ trace w' = Clicked d consent_control :: Waited d consent_control
                                 :: trace w
                 /\ still d w w').
Proof.
  intros L. destruct w as [si st cu ro lo rd fi se tr]. cbn in L. subst cu. cbn [site].
  pose (w1 := mkWorld si st (Some url) ro lo rd fi se (Waited d consent_control :: tr)).
  pose (w2 := mkWorld si st (Some url) ro lo rd fi se
                (Clicked d consent_control :: Waited d consent_control :: tr)).
  assert (S1 : still d (mkWorld si st (Some url) ro lo rd fi se tr) w1)
    by (unfold still, quiet; cbn; auto 10).
  assert (S2 : still d (mkWorld si st (Some url) ro lo rd fi se tr) w2)
    by (unfold still, quiet; cbn; auto 10).
  split; [|split].
  - intros C. exists w2. split; [|split; [reflexivity|exact S2]].
    unfold accept_cookies. apply returns_try_ok.
    eapply (@returns_ebind _ _ _ _ _ w1 consent_control).
    + apply returns_call_eq. cbn. unfold answer_wait, here. cbn. rewrite C. reflexivity.
    + apply returns_call_eq. cbn. unfold answer_click, here. cbn. rewrite C. reflexivity.
  - intros e W. exists w1. split; [|split; [reflexivity|exact S1]].
    assert (R : returns (cookie <~ call (UntilClickable d (Py.lit "acceptCookies")) ;;
                         call (Click d cookie))
                        (mkWorld si st (Some url) ro lo rd fi se tr) w1 (Raise e)).
    { apply returns_ebind_raise. apply returns_call_eq. cbn.
      unfold answer_wait, here. cbn. rewrite W. reflexivity. }
    unfold accept_cookies, swallowed. destruct (is_click_or_timeout e) eqn:E.
    + eapply returns_try_caught; [exact R|exact E|apply returns_ret].
    + apply returns_try_uncaught; [exact R|exact E].
  - intros e W C. exists w2. split; [|split; [reflexivity|exact S2]].
    assert (R : returns (cookie <~ call (UntilClickable d (Py.lit "acceptCookies")) ;;
                         call (Click d cookie))
                        (mkWorld si st (Some url) ro lo rd fi se tr) w2 (Raise e)).
    { eapply (@returns_ebind _ _ _ _ _ w1 consent_control).
      - apply returns_call_eq. cbn. unfold answer_wait, here. cbn. rewrite W. reflexivity.
      - apply returns_call_eq. cbn. unfold answer_click, here. cbn. rewrite C. reflexivity. }
    unfold accept_cookies, swallowed. destruct (is_click_or_timeout e) eqn:E.
    + eapply returns_try_caught; [exact R|exact E|apply returns_ret].
    + apply returns_try_uncaught; [exact R|exact E].
Qed.

(** X10 on a page without consent banner: the wait times out, nothing is
    clicked. *)
Lemma accept_cookies_outcomes_witness :
  exists w', returns (accept_cookies 0) (on_page (page_of 0 document_two) HOME_URL) w' (Ok tt)
             /\ trace w' = [Waited 0 consent_control]
             /\ still 0 (on_page (page_of 0 document_two) HOME_URL) w'.
Proof.
  destruct (@accept_cookies_outcomes 0 (on_page (page_of 0 document_two) HOME_URL)
              HOME_URL eq_refl) as (_ & H & _).
  exact (H TimeoutException eq_refl).
Defined.

(** X11.  When the round that ends the loop fails with something other
    than a timeout or an intercepted click, [click_load_more] raises it,
    after the [n] cycles that went through. *)
Theorem click_load_more_lets_others_through (d : driver) (w : world) (url : pystr)
    (n : nat) (e : exn) :
  current_url w = Some url ->
  (forall i, i < n -> load_more (site w url) (rounds w + i) = mkRound (Ok tt) (Ok tt)) ->
  fails (load_more (site w url) (rounds w + n)) e ->
  is_click_or_timeout e = false ->
  exists w' ending,
    returns (click_load_more d) w w' (Raise e)
    /\ (ending = [Waited d load_more_control]
        \/ ending = [Clicked d load_more_control; Waited d load_more_control])
    /\ trace w' = ending ++ cycles d n ++ trace w
    /\ loaded w' = loaded w + n.
Proof.
  intros L Hok Hf C.
  destruct (@loop_fails d url e n w L Hok Hf) as (w' & ending & R & E & T & Ld & _).
  exists w', ending. split; [|auto].
  unfold click_load_more. apply returns_try_uncaught; [exact R|exact C].
Qed.

(** X11 on a page that breaks after two clicks. *)
Lemma click_load_more_lets_others_through_witness :
  exists w' ending,
    returns (click_load_more 0) (on_page (page_breaking 2 document_two) HOME_URL) w'
            (Raise WebDriverException)
    /\ (ending = [Waited 0 load_more_control]
        \/ ending = [Clicked 0 load_more_control; Waited 0 load_more_control])
    /\ trace w' = ending ++ cycles 0 2 ++ []
    /\ loaded w' = 0 + 2.
Proof.
  apply (@click_load_more_lets_others_through 0
           (on_page (page_breaking 2 document_two) HOME_URL) HOME_URL 2 WebDriverException).
  - reflexivity.
  - intros i Hi. cbn. destruct i as [|[|i]]; [reflexivity|reflexivity|lia].
  - left. reflexivity.
  - reflexivity.
Defined.

Lemma accept_cookies_gives_way d w url :
  current_url w = Some url -> gives_way (consent (site w url)) ->
  exists w', returns (accept_cookies d) w w' (Ok tt)
             /\ still d w w' /\ visited (trace w') = visited (trace w).
Proof.
  intros L G. destruct w as [si st cu ro lo rd fi se tr]. cbn in L, G. subst cu.
  unfold gives_way, fails in G.
  pose (w1 := mkWorld si st (Some url) ro lo rd fi se (Waited d consent_control :: tr)).
  pose (w2 := mkWorld si st (Some url) ro lo rd fi se
                (Clicked d consent_control :: Waited d consent_control :: tr)).
  destruct (wait_outcome (consent (si url))) as [[]|e] eqn:W.
  - assert (R1 : returns (call (UntilClickable d (Py.lit "acceptCookies")))
                   (mkWorld si st (Some url) ro lo rd fi se tr) w1 (Ok consent_control)).
    { apply returns_call_eq. cbn. unfold answer_wait, here. cbn. rewrite W. reflexivity. }
    exists w2. split; [|split; [unfold still, quiet; cbn; auto 10|reflexivity]].
    destruct (click_outcome (consent (si url))) as [[]|e] eqn:C.
    + unfold accept_cookies. apply returns_try_ok.
      eapply returns_ebind; [exact R1|].
      apply returns_call_eq. cbn. unfold answer_click, here. cbn. rewrite C. reflexivity.
    + unfold accept_cookies. eapply returns_try_caught; [|apply G; auto|apply returns_ret].
      eapply returns_ebind; [exact R1|].
      apply returns_call_eq. cbn. unfold answer_click, here. cbn. rewrite C. reflexivity.
  - exists w1. split; [|split; [unfold still, quiet; cbn; auto 10|reflexivity]].
    unfold accept_cookies. eapply returns_try_caught; [|apply G; auto|apply returns_ret].
    apply returns_ebind_raise.
    apply returns_call_eq. cbn. unfold answer_wait, here. cbn. rewrite W. reflexivity.
Qed.

Lemma stops_fails r : stops r -> exists e, fails r e /\ is_click_or_timeout e = true.
Proof.
  intros [T | I].
  - exists TimeoutException. split; [left; exact T|reflexivity].
  - exists ElementClickInterceptedException. split; [right; exact I|reflexivity].
Qed.

Lemma get_page_served d url w n soup :
  serves (site w url) n soup ->
  exists w',
    returns (get_page d url) w w' (get_page_products soup)
    /\ quiet d w w' /\ files w' = files w
    /\ current_url w' = Some url /\ loaded w' = n
    /\ visited (trace w') = url :: visited (trace w).
Proof.
  intros (Nav & G & Hok & Hstop & Doc).
  pose (w1 := mkWorld (site w) (startup w) (Some url) 0 0 (read_only w) (files w)
                (sessions w) (Navigated d url :: trace w)).
  assert (R1 : returns (call (Get d url)) w w1 (Ok tt)).
  { apply returns_call_eq. cbn. rewrite Nav. reflexivity. }
  destruct (@accept_cookies_gives_way d w1 url eq_refl G) as (w2 & R2 & S2 & V2).
  destruct S2 as ((Si2 & St2 & Ro2 & Se2 & Tc2) & F2 & L2 & Rd2 & Ld2).
  cbn in Si2, St2, Ro2, Se2, Tc2, F2, L2, Rd2, Ld2, V2.
  destruct (stops_fails Hstop) as (e & Hf & C).
  destruct (@loop_fails d url e n w2 L2) as (w3 & ending & R3 & E & T & Ld3 & L3 & Si3 & F3 & Ro3 & St3 & Se3).
  { intros i Hi. rewrite Rd2, Si2. apply Hok. exact Hi. }
  { rewrite Rd2, Si2. exact Hf. }
  pose (w4 := note (Rendered d) w3).
  exists w4. split; [|split; [|split; [|split; [|split]]]].
  - unfold get_page. eapply returns_bind; [|].
    + eapply returns_ebind; [exact R1|].
      eapply returns_ebind; [exact R2|].
      eapply returns_ebind.
      { unfold click_load_more. eapply returns_try_caught; [exact R3|exact C|apply returns_ret]. }
      eapply (@returns_ebind _ _ _ _ w3 w4 soup); [|apply returns_lift].
      apply returns_call_eq. cbn [handle]. unfold here. cbn [note current_url site loaded].
      rewrite L3, L2. cbn [option_map]. rewrite Si3, Si2, Ld3, Ld2. cbn [Nat.add]. rewrite Doc. reflexivity.
    + destruct (get_page_products_total soup) as (l & -> & _). apply run_ret.
  - unfold quiet. cbn [w4 note site startup read_only sessions trace].
    rewrite Si3, Si2, St3, St2, Ro3, Ro2, Se3, Se2, T.
    repeat (split; [reflexivity|]).
    change (Rendered d :: ending ++ cycles d n ++ trace w2)
      with ([Rendered d] ++ ending ++ cycles d n ++ trace w2).
    rewrite !times_closed_app, times_closed_cycles, Tc2.
    destruct E as [-> | ->]; reflexivity.
  - cbn. rewrite F3, F2. reflexivity.
  - cbn. rewrite L3, L2. reflexivity.
  - cbn. rewrite Ld3, Ld2. reflexivity.
  - cbn [w4 note trace visited]. rewrite T, !visited_app, visited_cycles, V2.
    destruct E as [-> | ->]; reflexivity.
Qed.

(** X12.  On a page that lets the scraper through, with [n] clicks that
    load more of it, [get_page] returns one entry per listing of the
    document as it stands after those [n] clicks, in document order: what
    [get_product] makes of the listing.  It touches no file. *)
Theorem get_page_extracts_loaded_document (d : driver) (page_url : pystr) (w : world)
    (n : nat) (soup : Soup.node) :
  serves (site w page_url) n soup ->
  exists w' l,
    returns (get_page d page_url) w w' (Ok l)
    /\ Forall2 (fun listing entry => get_product listing = Ok entry)
               (Soup.select (Py.lit "thumbnail") soup) l
    /\ loaded w' = n
    /\ files w' = files w.
Proof.
  intros S.
  destruct (@get_page_served d page_url w n soup S) as (w' & R & _ & F & _ & Ld & _).
  destruct (get_page_products_total soup) as (l & E & H).
  exists w', l. rewrite E in R. auto.
Qed.

Lemma page_of_serves n doc : serves (page_of n doc) n doc.
Proof.
  unfold serves, page_of. cbn [navigation consent load_more document].
  split; [reflexivity|]. split.
  - intros e [F | [F _]]; cbn in F; [injection F as <-; reflexivity|discriminate].
  - unfold clickable_times. split; [|split; [|reflexivity]].
    + intros i Hi. apply Nat.ltb_lt in Hi. rewrite Hi. reflexivity.
    + rewrite Nat.ltb_irrefl. left. reflexivity.
Qed.

(** X12 on a page that shows [document_two] and has no "load more" control. *)
Lemma get_page_extracts_loaded_document_witness :
  exists w' l,
    returns (get_page 0 HOME_URL) (site_showing document_two) w' (Ok l)
    /\ Forall2 (fun listing entry => get_product listing = Ok entry)
               (Soup.select (Py.lit "thumbnail") document_two) l
    /\ loaded w' = 0
    /\ files w' = files (site_showing document_two).
Proof.
  apply (@get_page_extracts_loaded_document 0 HOME_URL (site_showing document_two)
           0 document_two).
  apply page_of_serves.
Defined.

(** X13.  When the navigation raises, [get_page] asks nothing more of the
    browser: it returns the empty list if what was raised is an
    [Exception], and lets it through otherwise. *)
Theorem get_page_gives_up_when_unreachable (d : driver) (page_url : pystr) (w : world)
    (e : exn) :
  navigation (site w page_url) = Raise e ->
  exists w',
    returns (get_page d page_url) w w' (if is_Exception e then Ok [] else Raise e)
    /\ trace w' = Navigated d page_url :: trace w
    /\ files w' = files w
    /\ current_url w' = current_url w.
Proof.
  intros Nav. exists (note (Navigated d page_url) w).
  split; [|cbn; auto].
  assert (R : returns (call (Get d page_url) ;;;
                       accept_cookies d ;;;
                       click_load_more d ;;;
                       soup <~ call (PageSource d) ;;
                       lift (get_page_products soup))
                      w (note (Navigated d page_url) w) (Raise e)).
  { apply returns_ebind_raise. apply returns_call_eq. cbn. rewrite Nav. reflexivity. }
  unfold get_page. destruct (is_Exception e) eqn:E.
  - eapply returns_try_caught; [exact R|exact E|apply returns_ret].
  - apply returns_try_uncaught; [exact R|exact E].
Qed.

(** X13 on a page that cannot be reached. *)
Lemma get_page_gives_up_when_unreachable_witness :
  exists w',
    returns (get_page 0 HOME_URL)
            (mkWorld (fun _ => page_unreachable WebDriverException) (Ok tt) None 0 0
                     (fun _ => false) [] 1 [])
            w' (Ok [])
    /\ trace w' = [Navigated 0 HOME_URL]
    /\ files w' = []
    /\ current_url w' = None.
Proof.
  apply (@get_page_gives_up_when_unreachable 0 HOME_URL
           (mkWorld (fun _ => page_unreachable WebDriverException) (Ok tt) None 0 0
                    (fun _ => false) [] 1 [])
           WebDriverException).
  reflexivity.
Defined.

Lemma after_rows_frame path rows : forall w,
  site (after_rows path rows w) = site w
  /\ startup (after_rows path rows w) = startup w
  /\ current_url (after_rows path rows w) = current_url w
  /\ rounds (after_rows path rows w) = rounds w
  /\ loaded (after_rows path rows w) = loaded w
  /\ read_only (after_rows path rows w) = read_only w
  /\ sessions (after_rows path rows w) = sessions w
  /\ trace (after_rows path rows w) = rev (map (Wrote path) rows) ++ trace w.
Proof.
  induction rows as [|row rows IH]; intros w; [cbn; auto 10|].
  cbn [after_rows fold_left]. fold (after_rows path rows (wrote path row w)).
  destruct (IH (wrote path row w)) as (A & B & C & D & E & F & G & H).
  rewrite A, B, C, D, E, F, G, H. cbn [wrote site startup current_url rounds loaded
                                       read_only sessions trace map rev].
  rewrite <- app_assoc. cbn. auto 10.
Qed.

Lemma after_rows_files path rows : forall w old rest,
  files w = (path, old) :: rest ->
  files (after_rows path rows w) = (path, old ++ concat rows) :: rest.
Proof.
  induction rows as [|row rows IH]; intros w old rest F.
  - cbn. rewrite app_nil_r. exact F.
  - cbn [after_rows fold_left]. fold (after_rows path rows (wrote path row w)).
    rewrite (IH _ (old ++ row) rest).
    + cbn [concat]. rewrite <- app_assoc. reflexivity.
    + cbn. rewrite F. apply append_top.
Qed.

(** Writing the products at the head of the list, then the rest. *)
Lemma rows_then path ps tail : forall w w2 r,
  returns (for_each tail
             (fun product =>
                row <~ lift (formatted_product product) ;;
                call (WriteText path (Csv.writerow row))))
          (after_rows path (map (fun p => Csv.format_row (product_row p)) ps) w) w2 r ->
  returns (for_each (map Some ps ++ tail)
             (fun product =>
                row <~ lift (formatted_product product) ;;
                call (WriteText path (Csv.writerow row)))) w w2 r.
Proof.
  induction ps as [|p ps IH]; intros w w2 r R; [exact R|].
  cbn [map app for_each].
  eapply (@returns_ebind _ _ _ _ w (wrote path (Csv.format_row (product_row p)) w) tt).
  - eapply returns_ebind; [apply returns_lift|].
    apply returns_call_eq. reflexivity.
  - apply IH. exact R.
Qed.

(** The body of the [with] block, run once the file is open, then the way
    out of the block. *)
Lemma block_run path ps tail w w2 r :
  returns (for_each tail
             (fun product =>
                row <~ lift (formatted_product product) ;;
                call (WriteText path (Csv.writerow row))))
          (after_rows path (lines_of ps) (opened path w)) w2 r ->
  read_only w path = false ->
  returns (with_open path
             (call (WriteText path (Csv.writerow (map Csv.Str PRODUCT_FIELDS))) ;;;
              for_each (map Some ps ++ tail)
                (fun product =>
                   row <~ lift (formatted_product product) ;;
                   call (WriteText path (Csv.writerow row)))))
          w (note (Released path) w2) r.
Proof.
  intros R W. unfold with_open.
  eapply (@returns_ebind _ _ _ _ w (opened path w) tt).
  { apply returns_call_eq. cbn. rewrite W. reflexivity. }
  eapply (@returns_bind _ _ _ _ (opened path w) w2 r).
  - eapply (@returns_ebind _ _ _ _ _ (wrote path (Csv.format_row PRODUCT_FIELDS)
                                        (opened path w)) tt).
    + apply returns_call_eq. reflexivity.
    + apply rows_then. unfold lines_of in R. cbn [map after_rows fold_left] in R.
      rewrite map_map in R. exact R.
  - unfold returns. rewrite run_trigger. apply run_ret.
Qed.

Lemma py_eqb_neq s t : s <> t -> Py.eqb s t = false.
Proof.
  intros H. destruct (Py.eqb s t) eqn:E; [|reflexivity].
  apply py_eqb_eq in E. contradiction.
Qed.

Lemma write_products_run path ps w :
  read_only w path = false ->
  returns (write_products_to_csv path (map Some ps)) w (written path ps w) (Ok tt).
Proof.
  intros W. unfold write_products_to_csv. apply returns_try_ok.
  rewrite <- (app_nil_r (map Some ps)).
  apply block_run; [apply returns_ret|exact W].
Qed.

Lemma written_files path ps w :
  files (written path ps w) = (path, csv_of ps) :: files w.
Proof.
  unfold written. cbn [note files].
  rewrite (@after_rows_files path (lines_of ps) (opened path w) [] (files w)); reflexivity.
Qed.

Lemma written_trace path ps w :
  trace (written path ps w)
  = Released path :: rev (map (Wrote path) (lines_of ps)) ++ Opened path :: trace w.
Proof.
  unfold written. cbn [note trace].
  destruct (after_rows_frame path (lines_of ps) (opened path w))
    as (_ & _ & _ & _ & _ & _ & _ & T).
  rewrite T. reflexivity.
Qed.





(** X16.  When the path cannot be opened for writing, [open] raises
    [IOError]; [write_products_to_csv] catches it and returns, whatever the
    list holds.  Nothing is written and no file changes. *)
Theorem write_products_gives_up_on_IOError (output_csv_path : pystr)
    (products : list (option Product)) (w : world) :
  read_only w output_csv_path = true ->
  exists w',
    returns (write_products_to_csv output_csv_path products) w w' (Ok tt)
    /\ files w' = files w
    /\ trace w' = Opened output_csv_path :: trace w.
Proof.
  intros W. exists (note (Opened output_csv_path) w).
  split; [|split; reflexivity].
  unfold write_products_to_csv.
  eapply returns_try_caught with (e := IOError); [|reflexivity|apply returns_ret].
  unfold with_open. apply returns_ebind_raise.
  apply returns_call_eq. cbn. rewrite W. reflexivity.
Qed.

(** X16 on a world whose files cannot be written. *)
Lemma write_products_gives_up_on_IOError_witness :
  exists w',
    returns (write_products_to_csv home_csv [Some record_asus; None])
            (mkWorld (fun _ => page_of 0 document_two) (Ok tt) None 0 0 (fun _ => true)
                     [] 0 [])
            w' (Ok tt)
    /\ files w' = []
    /\ trace w' = [Opened home_csv].
Proof.
  apply (@write_products_gives_up_on_IOError home_csv [Some record_asus; None]
           (mkWorld (fun _ => page_of 0 document_two) (Ok tt) None 0 0 (fun _ => true)
                    [] 0 [])).
  reflexivity.
Defined.

Lemma visited_writes path rows : visited (rev (map (Wrote path) rows)) = [].
Proof.
  induction rows as [|row rows IH]; [reflexivity|].
  cbn [map rev]. rewrite visited_app, IH. reflexivity.
Qed.

Lemma times_closed_writes d path rows :
  times_closed d (rev (map (Wrote path) rows)) = 0.
Proof.
  induction rows as [|row rows IH]; [reflexivity|].
  cbn [map rev]. rewrite times_closed_app, IH. reflexivity.
Qed.

Lemma written_quiet d path ps w :
  quiet d w (written path ps w) /\ visited (trace (written path ps w)) = visited (trace w).
Proof.
  split.
  - unfold quiet. rewrite written_trace. unfold written. cbn [note site startup read_only sessions].
    destruct (after_rows_frame path (lines_of ps) (opened path w))
      as (A & B & _ & _ & _ & F & G & _).
    rewrite A, B, F, G. cbn [opened site startup read_only sessions].
    repeat (split; [reflexivity|]).
    change (Released path :: rev (map (Wrote path) (lines_of ps)) ++ Opened path :: trace w)
      with ([Released path] ++ rev (map (Wrote path) (lines_of ps))
              ++ [Opened path] ++ trace w).
    rewrite !times_closed_app, times_closed_writes. reflexivity.
  - rewrite written_trace.
    change (Released path :: rev (map (Wrote path) (lines_of ps)) ++ Opened path :: trace w)
      with ([Released path] ++ rev (map (Wrote path) (lines_of ps))
              ++ [Opened path] ++ trace w).
    rewrite !visited_app, visited_writes. reflexivity.
Qed.

Lemma get_page_offers d url w ps :
  offers (site w url) ps ->
  exists w',
    returns (get_page d url) w w' (Ok (map Some ps))
    /\ quiet d w w' /\ files w' = files w
    /\ visited (trace w') = url :: visited (trace w).
Proof.
  intros [(e & Nav & E & ->) | (n & soup & S & P)].
  - exists (note (Navigated d url) w).
    split; [|split; [unfold quiet; cbn; auto|split; reflexivity]].
    unfold get_page. eapply returns_try_caught; [|exact E|apply returns_ret].
    apply returns_ebind_raise. apply returns_call_eq. cbn. rewrite Nav. reflexivity.
  - destruct (@get_page_served d url w n soup S) as (w' & R & Q & F & _ & _ & V).
    exists w'. rewrite P in R. auto.
Qed.

Lemma truthy_map A B (f : A -> B) l : truthy (map f l) = truthy l.
Proof. destruct l; reflexivity. Qed.

Lemma page_step_offers d name url w ps :
  offers (site w url) ps ->
  exists w',
    returns (page_step d (name, url)) w w' (Ok tt)
    /\ quiet d w w'
    /\ visited (trace w') = url :: visited (trace w)
    /\ forall path,
         view w' path
         = page_written (fun _ => ps) (read_only w) (view w) (name, url) path.
Proof.
  intros O.
  destruct (@get_page_offers d url w ps O) as (w1 & R1 & Q1 & F1 & V1).
  pose proof Q1 as (_ & _ & Ro1 & _).
  unfold page_written, view. cbn [fst snd].
  destruct ps as [|p ps].
  - exists w1. split; [|split; [exact Q1|split; [exact V1|]]].
    + unfold page_step. eapply returns_ebind; [exact R1|]. apply returns_ret.
    + intros path. rewrite F1, andb_false_r. reflexivity.
  - cbn [truthy].
    destruct (read_only w (name ++ Py.lit ".csv")) eqn:W.
    + exists (note (Opened (name ++ Py.lit ".csv")) w1).
      split; [|split; [|split; [exact V1|]]].
      * unfold page_step. eapply returns_ebind; [exact R1|].
        rewrite truthy_map. cbn [truthy].
        unfold write_products_to_csv.
        eapply returns_try_caught with (e := IOError); [|reflexivity|apply returns_ret].
        unfold with_open. apply returns_ebind_raise.
        apply returns_call_eq. cbn [handle]. rewrite Ro1, W. reflexivity.
      * destruct Q1 as (A & B & C & D & E). unfold quiet. cbn. auto.
      * intros path. cbn [note files]. rewrite F1, andb_false_r. reflexivity.
    + assert (W1 : read_only w1 (name ++ Py.lit ".csv") = false) by (rewrite Ro1; exact W).
      exists (written (name ++ Py.lit ".csv") (p :: ps) w1).
      destruct (written_quiet d (name ++ Py.lit ".csv") (p :: ps) w1) as (Q2 & V2).
      split; [|split; [exact (quiet_trans Q1 Q2)|split; [rewrite V2; exact V1|]]].
      * unfold page_step. eapply returns_ebind; [exact R1|].
        rewrite truthy_map. cbn [truthy].
        apply write_products_run. exact W1.
      * intros path. rewrite written_files. cbn [file_content negb].
        rewrite !andb_true_r, F1. reflexivity.
Qed.

(** A loop whose passes all return, with an invariant on the entries done
    so far. *)
Lemma for_each_returns A (body : A -> exec unit) (I : list A -> world -> Prop) :
  forall l pre w,
    I pre w ->
    (forall done x w1, (exists todo, pre ++ l = done ++ x :: todo) -> I done w1 ->
       exists w2, returns (body x) w1 w2 (Ok tt) /\ I (done ++ [x]) w2) ->
    exists w', returns (for_each l body) w w' (Ok tt) /\ I (pre ++ l) w'.
Proof.
  induction l as [|x l IH]; intros pre w Hw Hbody.
  - exists w. rewrite app_nil_r. split; [apply returns_ret|exact Hw].
  - destruct (Hbody pre x w) as (w1 & R1 & I1); [exists l; reflexivity|exact Hw|].
    destruct (IH (pre ++ [x]) w1 I1) as (w' & R & I').
    + intros done y w2 (todo & E) Hd. apply Hbody; [|exact Hd].
      exists todo. rewrite <- E, <- app_assoc. reflexivity.
    + exists w'. split.
      * cbn [for_each]. eapply returns_ebind; [exact R1|exact R].
      * rewrite <- app_assoc in I'. exact I'.
Qed.

(** The loop of [get_all_products] over pages that offer their catalogue. *)
Lemma pages_run d catalogue w0 pages :
  (forall name url, In (name, url) pages -> offers (site w0 url) (catalogue url)) ->
  exists w',
    returns (for_each pages (page_step d)) w0 w' (Ok tt)
    /\ quiet d w0 w'
    /\ visited (trace w') = rev (map snd pages) ++ visited (trace w0)
    /\ forall path,
         view w' path = fold_left (page_written catalogue (read_only w0)) pages (view w0) path.
Proof.
  intros Hoff.
  pose (I := fun (done : list (pystr * pystr)) (w1 : world) =>
               quiet d w0 w1
               /\ visited (trace w1) = rev (map snd done) ++ visited (trace w0)
               /\ forall path,
                    view w1 path
                    = fold_left (page_written catalogue (read_only w0)) done (view w0) path).
  destruct (@for_each_returns _ (page_step d) I pages [] w0) as (w' & R & H).
  - unfold I. split; [apply quiet_refl|]. split; reflexivity.
  - intros done [name url] w1 (todo & E) (Q & V & F). cbn [app] in E.
    assert (In (name, url) pages) as Hin by (rewrite E; apply in_elt).
    pose proof Q as (Si & _ & Ro & _).
    destruct (@page_step_offers d name url w1 (catalogue url)) as (w2 & R2 & Q2 & V2 & F2).
    { rewrite Si. apply Hoff with name. exact Hin. }
    exists w2. split; [exact R2|]. unfold I.
    split; [exact (quiet_trans Q Q2)|]. split.
    + rewrite V2, V, map_app, rev_app_distr. reflexivity.
    + intros path. rewrite F2, fold_left_app. cbn [fold_left].
      unfold page_written. cbn [fst snd]. rewrite Ro, F. reflexivity.
  - exists w'. cbn [app] in H. destruct H as (Q & V & F). auto.
Qed.

Lemma view_other catalogue ro pages path : forall v,
  (forall name url, In (name, url) pages -> path <> name ++ Py.lit ".csv") ->
  fold_left (page_written catalogue ro) pages v path = v path.
Proof.
  induction pages as [|[name url] pages IH]; intros v H; [reflexivity|].
  cbn [fold_left]. rewrite IH.
  - unfold page_written. cbn [fst snd].
    rewrite py_eqb_neq; [reflexivity|].
    intros E. apply (H name url); [left; reflexivity|congruence].
  - intros n u Hin. apply (H n u). right. exact Hin.
Qed.

Lemma view_own catalogue ro pages name url : forall v,
  NoDup (map fst pages) -> In (name, url) pages ->
  fold_left (page_written catalogue ro) pages v (name ++ Py.lit ".csv")
  = if truthy (catalogue url) && negb (ro (name ++ Py.lit ".csv"))
    then Some (csv_of (catalogue url))
    else v (name ++ Py.lit ".csv").
Proof.
  induction pages as [|[name' url'] pages IH]; intros v N Hin; [destruct Hin|].
  cbn [map fst] in N. inversion N as [|? ? Hnot N']. subst.
  cbn [fold_left]. destruct Hin as [E | Hin].
  - injection E as -> ->. rewrite view_other.
    + unfold page_written. cbn [fst snd]. rewrite py_eqb_refl. reflexivity.
    + intros n u Hin E. apply app_inv_tail in E. subst n.
      apply Hnot. change name with (fst (name, u)). apply in_map. exact Hin.
  - rewrite (IH _ N' Hin). unfold page_written. cbn [fst snd].
    rewrite py_eqb_neq; [reflexivity|].
    intros E. apply app_inv_tail in E. subst name'.
    apply Hnot. change name with (fst (name, url)). apply in_map. exact Hin.
Qed.

Lemma PAGES_names : NoDup (map fst PAGES).
Proof.
  unfold PAGES. cbn [map fst].
  repeat (constructor; [cbn [In]; intuition discriminate|]). constructor.
Qed.

Lemma init_driver_run w :
  startup w = Ok tt -> returns (init_driver false) w (started w) (Ok (sessions w)).
Proof.
  intros St. unfold init_driver. apply returns_call_eq.
  unfold started. cbn [handle]. rewrite St. reflexivity.
Qed.

(** X17.  When no browser can be started, [get_all_products] raises what
    [webdriver.Chrome] raised, and nothing else happens: no page is asked
    for, no file is touched, no session is closed. *)
Theorem get_all_products_needs_a_browser (w : world) (e : exn) :
  startup w = Raise e ->
  returns get_all_products w w (Raise e).
Proof.
  intros St. unfold get_all_products. apply returns_ebind_raise.
  unfold init_driver. apply returns_call_eq. cbn. rewrite St. reflexivity.
Qed.

(** X17 on a machine without browser. *)
Lemma get_all_products_needs_a_browser_witness :
  returns get_all_products
          (mkWorld (fun _ => page_of 0 document_two) (Raise WebDriverException) None 0 0
                   (fun _ => false) [] 0 [])
          (mkWorld (fun _ => page_of 0 document_two) (Raise WebDriverException) None 0 0
                   (fun _ => false) [] 0 [])
          (Raise WebDriverException).
Proof.
  apply (@get_all_products_needs_a_browser
           (mkWorld (fun _ => page_of 0 document_two) (Raise WebDriverException) None 0 0
                    (fun _ => false) [] 0 [])
           WebDriverException).
  reflexivity.
Defined.

(** X18.  When every configured page offers its catalogue (it cannot be
    reached, or it lets the scraper through and each of its listings is
    extracted), the run ends without raising, and afterwards: the file
    [<name>.csv] of a page with products holds the header row and the rows
    of these products, if it could be opened; the file of a page without
    products or of a path that cannot be written is as it was; and so is
    every other file. *)
Theorem get_all_products_writes_each_page (w : world)
    (catalogue : pystr -> list Product) :
  startup w = Ok tt ->
  (forall name url, In (name, url) PAGES -> offers (site w url) (catalogue url)) ->
  exists w',
    returns get_all_products w w' (Ok tt)
    /\ (forall name url, In (name, url) PAGES ->
        view w' (name ++ Py.lit ".csv")
        = if truthy (catalogue url) && negb (read_only w (name ++ Py.lit ".csv"))
          then Some (csv_of (catalogue url))
          else view w (name ++ Py.lit ".csv"))
    /\ (forall path,
          (forall name url, In (name, url) PAGES -> path <> name ++ Py.lit ".csv") ->
          view w' path = view w path).
Proof.
  intros St Hoff.
  destruct (@pages_run (sessions w) catalogue (started w) PAGES Hoff)
    as (w1 & R & _ & _ & F).
  exists (note (Closed (sessions w)) w1). split; [|split].
  - unfold get_all_products.
    eapply returns_ebind; [apply init_driver_run; exact St|].
    eapply returns_ebind; [exact R|].
    unfold close_driver. apply returns_call_eq. reflexivity.
  - intros name url Hin. unfold view at 1. cbn [note files].
    fold (view w1 (name ++ Py.lit ".csv")). rewrite F.
    apply view_own; [apply PAGES_names|exact Hin].
  - intros path H. unfold view at 1. cbn [note files].
    fold (view w1 path). rewrite F. apply view_other. exact H.
Qed.

(** X19.  Under the same conditions the run asks for the configured pages
    one after the other, each once, in the order of [PAGES]: also for the
    pages after one that cannot be reached. *)
Theorem get_all_products_visits_pages_in_order (w : world)
    (catalogue : pystr -> list Product) :
  startup w = Ok tt ->
  (forall name url, In (name, url) PAGES -> offers (site w url) (catalogue url)) ->
  exists w',
    returns get_all_products w w' (Ok tt)
    /\ visited (trace w') = rev (map snd PAGES) ++ visited (trace w).
Proof.
  intros St Hoff.
  destruct (@pages_run (sessions w) catalogue (started w) PAGES Hoff)
    as (w1 & R & _ & V & _).
  exists (note (Closed (sessions w)) w1). split.
  - unfold get_all_products.
    eapply returns_ebind; [apply init_driver_run; exact St|].
    eapply returns_ebind; [exact R|].
    unfold close_driver. apply returns_call_eq. reflexivity.
  - cbn [note trace visited]. exact V.
Qed.

Lemma world_of_laptops_offers name url :
  In (name, url) PAGES ->
  offers (site world_of_laptops url) (catalogue_of_laptops url).
Proof.
  unfold PAGES. cbn [In].
  intros [E | [E | [E | [E | [E | [E | []]]]]]]; injection E as <- <-.
  - change (offers (page_of 0 document_empty) []).
    right. exists 0, document_empty. split; [apply page_of_serves|reflexivity].
  - change (offers (page_unreachable WebDriverException) []).
    left. exists WebDriverException. auto.
  - change (offers page_growing [record_asus; record_dell]).
    right. exists 2, document_two. split; [|vm_compute; reflexivity].
    unfold serves, page_growing. cbn [navigation consent load_more document].
    split; [reflexivity|]. split.
    + intros e [F | [F _]]; cbn in F; [injection F as <-; reflexivity|discriminate].
    + split; [|split; [left; reflexivity|reflexivity]].
      intros i Hi. destruct i as [|[|i]]; [reflexivity|reflexivity|lia].
  - change (offers (page_of 0 document_empty) []).
    right. exists 0, document_empty. split; [apply page_of_serves|reflexivity].
  - change (offers (page_of 0 document_empty) []).
    right. exists 0, document_empty. split; [apply page_of_serves|reflexivity].
  - change (offers (page_of 0 document_empty) []).
    right. exists 0, document_empty. split; [apply page_of_serves|reflexivity].
Qed.

(** X18 on that site. *)
Lemma get_all_products_writes_each_page_witness :
  exists w',
    returns get_all_products world_of_laptops w' (Ok tt)
    /\ (forall name url, In (name, url) PAGES ->
        view w' (name ++ Py.lit ".csv")
        = if truthy (catalogue_of_laptops url)
             && negb (read_only world_of_laptops (name ++ Py.lit ".csv"))
          then Some (csv_of (catalogue_of_laptops url))
          else view world_of_laptops (name ++ Py.lit ".csv"))
    /\ (forall path,
          (forall name url, In (name, url) PAGES -> path <> name ++ Py.lit ".csv") ->
          view w' path = view world_of_laptops path).
Proof.
  apply (@get_all_products_writes_each_page world_of_laptops catalogue_of_laptops).
  - reflexivity.
  - exact world_of_laptops_offers.
Defined.

(** X19 on that site. *)
Lemma get_all_products_visits_pages_in_order_witness :
  exists w',
    returns get_all_products world_of_laptops w' (Ok tt)
    /\ visited (trace w') = rev (map snd PAGES) ++ visited (trace world_of_laptops).
Proof.
  apply (@get_all_products_visits_pages_in_order world_of_laptops catalogue_of_laptops).
  - reflexivity.
  - exact world_of_laptops_offers.
Defined.

Lemma first_none (l : list (option Product)) :
  In None l -> exists ps rest, l = map Some ps ++ None :: rest.
Proof.
  induction l as [|o l IH]; intros H; [destruct H|].
  destruct o as [p|].
  - destruct H as [H|H]; [discriminate|].
    destruct (IH H) as (ps & rest & ->). exists (p :: ps), rest. reflexivity.
  - exists [], l. reflexivity.
Qed.

Lemma failed_listing_entry ns l :
  Forall2 (fun n o => get_product n = Ok o) ns l ->
  Exists (fun n => get_product n = Ok None) ns ->
  In None l.
Proof.
  induction 1 as [|n o ns l G _ IH]; intros E; inversion E as [? ? H|? ? H]; subst.
  - left. congruence.
  - right. apply IH. exact H.
Qed.

Lemma returns_for_each_app A (body : A -> exec unit) l1 l2 : forall w w1 w2 r,
  returns (for_each l1 body) w w1 (Ok tt) ->
  returns (for_each l2 body) w1 w2 r ->
  returns (for_each (l1 ++ l2) body) w w2 r.
Proof.
  induction l1 as [|x l1 IH]; intros w w1 w2 r R1 R2.
  - apply returns_ret_inv in R1. destruct R1 as [-> _]. exact R2.
  - cbn [for_each] in R1. apply returns_bind_inv in R1.
    destruct R1 as (w' & [[]|e] & Rx & R1).
    + cbn [app for_each]. eapply returns_ebind; [exact Rx|].
      eapply IH; [exact R1|exact R2].
    + apply returns_ret_inv in R1. destruct R1 as [_ R1]. discriminate R1.
Qed.

(** The pass of the loop over a page one of whose listings fails
    extraction. *)
Lemma page_step_aborts d name url w n soup :
  serves (site w url) n soup ->
  Exists (fun listing => get_product listing = Ok None)
         (Soup.select (Py.lit "thumbnail") soup) ->
  read_only w (name ++ Py.lit ".csv") = false ->
  exists w',
    returns (page_step d (name, url)) w w' (Raise AttributeError)
    /\ quiet d w w'
    /\ visited (trace w') = url :: visited (trace w)
    /\ writer_invoked (name ++ Py.lit ".csv") (trace w') = true.
Proof.
  intros S E W.
  destruct (@get_page_served d url w n soup S) as (w1 & R1 & Q1 & F1 & _ & _ & V1).
  destruct (get_page_products_total soup) as (l & El & H).
  destruct (@first_none l (failed_listing_entry H E)) as (ps & rest & ->).
  rewrite El in R1. pose proof Q1 as (_ & _ & Ro1 & _).
  assert (W1 : read_only w1 (name ++ Py.lit ".csv") = false) by (rewrite Ro1; exact W).
  exists (written (name ++ Py.lit ".csv") ps w1).
  destruct (written_quiet d (name ++ Py.lit ".csv") ps w1) as (Q2 & V2).
  split; [|split; [exact (quiet_trans Q1 Q2)|split; [rewrite V2; exact V1|]]].
  - unfold page_step. eapply returns_ebind; [exact R1|].
    replace (truthy (map Some ps ++ None :: rest)) with true by (destruct ps; reflexivity).
    unfold write_products_to_csv. apply returns_try_uncaught; [|reflexivity].
    apply block_run; [|exact W1].
    cbn [for_each]. apply returns_ebind_raise. apply returns_ebind_raise.
    apply returns_lift.
  - rewrite written_trace. cbn [writer_invoked existsb].
    unfold writer_invoked. rewrite existsb_app. cbn [existsb].
    rewrite py_eqb_refl. cbn [orb]. apply orb_true_r.
Qed.

(** X20.  The run breaks off at the first page one of whose listings fails
    extraction, if the file of that page can be opened: the [None] that
    [get_page] keeps in its list makes the writer raise [AttributeError],
    which nothing catches.  The pages before it have been visited, the
    pages after it are not, and the session is not closed. *)
Theorem get_all_products_breaks_off (w : world) (catalogue : pystr -> list Product)
    (done todo : list (pystr * pystr)) (page_name page_url : pystr)
    (n : nat) (soup : Soup.node) :
  startup w = Ok tt ->
  PAGES = done ++ (page_name, page_url) :: todo ->
  (forall name url, In (name, url) done -> offers (site w url) (catalogue url)) ->
  serves (site w page_url) n soup ->
  Exists (fun listing => get_product listing = Ok None)
         (Soup.select (Py.lit "thumbnail") soup) ->
  read_only w (page_name ++ Py.lit ".csv") = false ->
  exists w',
    returns get_all_products w w' (Raise AttributeError)
    /\ visited (trace w') = page_url :: rev (map snd done) ++ visited (trace w)
    /\ times_closed (sessions w) (trace w') = times_closed (sessions w) (trace w)
    /\ writer_invoked (page_name ++ Py.lit ".csv") (trace w') = true.
Proof.
  intros St EP Hoff S E W.
  destruct (@pages_run (sessions w) catalogue (started w) done Hoff)
    as (w1 & R1 & Q1 & V1 & _).
  pose proof Q1 as (Si1 & _ & Ro1 & _).
  destruct (@page_step_aborts (sessions w) page_name page_url w1 n soup)
    as (w2 & R2 & Q2 & V2 & O2).
  { rewrite Si1. exact S. }
  { exact E. }
  { rewrite Ro1. exact W. }
  exists w2. split; [|split; [|split; [|exact O2]]].
  - unfold get_all_products.
    eapply returns_ebind; [apply init_driver_run; exact St|].
    apply returns_ebind_raise. rewrite EP.
    eapply returns_for_each_app; [exact R1|].
    cbn [for_each]. apply returns_ebind_raise. exact R2.
  - rewrite V2, V1. reflexivity.
  - destruct (quiet_trans Q1 Q2) as (_ & _ & _ & _ & T). rewrite T. reflexivity.
Qed.

(** X20 on that site: the run breaks off at the third page. *)
Lemma get_all_products_breaks_off_witness :
  exists w',
    returns get_all_products world_of_mixed w' (Raise AttributeError)
    /\ visited (trace w')
       = laptops_url :: rev [HOME_URL; HOME_URL ++ Py.lit "computers"] ++ []
    /\ times_closed 0 (trace w') = 0
    /\ writer_invoked (Py.lit "laptops" ++ Py.lit ".csv") (trace w') = true.
Proof.
  apply (@get_all_products_breaks_off world_of_mixed (fun _ => [])
           [(Py.lit "home", HOME_URL); (Py.lit "computers", HOME_URL ++ Py.lit "computers")]
           [(Py.lit "tablets", HOME_URL ++ Py.lit "computers/tablets");
            (Py.lit "phones", HOME_URL ++ Py.lit "phones");
            (Py.lit "touch", HOME_URL ++ Py.lit "phones/touch")]
           (Py.lit "laptops") laptops_url 0 document_mixed).
  - reflexivity.
  - reflexivity.
  - cbn [In]. intros name url [E | [E | []]]; injection E as <- <-.
    + change (offers (page_of 0 document_empty) []).
      right. exists 0, document_empty. split; [apply page_of_serves|reflexivity].
    + change (offers (page_unreachable WebDriverException) []).
      left. exists WebDriverException. auto.
  - change (serves (page_of 0 document_mixed) 0 document_mixed). apply page_of_serves.
  - apply Exists_cons_hd. vm_compute. reflexivity.
  - reflexivity.
Defined.

(** X21.  On a page whose environment raises nothing but [Exception]s and
    whose "load more" loop is finite, [get_page] ends and returns a list,
    whatever fails on the way: the navigation, the consent step, a round
    of the loop or the rendering.  The list is empty or made from a
    document of the page; no file is touched and the session stays open. *)
Theorem get_page_ends_with_a_list (d : driver) (page_url : pystr) (w : world) :
  raises_exceptions (site w page_url) ->
  loop_finite (site w page_url) ->
  exists w' l,
    returns (get_page d page_url) w w' (Ok l)
    /\ (l = [] \/ exists k soup, document (site w page_url) k = Ok soup
                                 /\ get_page_products soup = Ok l)
    /\ files w' = files w
    /\ times_closed d (trace w') = times_closed d (trace w).
Proof.
  intros Hex Hfin.
  destruct (@get_page_outcome d page_url w Hex Hfin) as (w' & r & R & Q & F & l & -> & Hl).
  exists w', l. destruct Q as (_ & _ & _ & _ & T). auto.
Qed.

(** X21 on such a page. *)
Lemma get_page_ends_with_a_list_witness :
  exists w' l,
    returns (get_page 0 HOME_URL) (on_page (page_losing_session document_two) HOME_URL)
            w' (Ok l)
    /\ (l = [] \/ exists k soup, document (page_losing_session document_two) k = Ok soup
                                 /\ get_page_products soup = Ok l)
    /\ files w' = []
    /\ times_closed 0 (trace w') = 0.
Proof.
  apply (@get_page_ends_with_a_list 0 HOME_URL
           (on_page (page_losing_session document_two) HOME_URL)).
  - unfold raises_exceptions. cbn.
    repeat split; intros; try discriminate;
      match goal with E : Raise _ = Raise _ |- _ => injection E as <- end; reflexivity.
  - exists 0, TimeoutException. split; [intros i Hi; lia|]. left. reflexivity.
Defined.
